(** * Sampling queue, rate limiter and Redis stream client of the DeepStream
      VLM plugin: a shallow embedding and its verified properties.

    Sources embedded here:
    - [dsexample_lib/threadsafe_queue.h]  (class [ThreadSafeQueue])
    - [gstdsexample.cpp]                  ([gst_dsexample_init],
                                           [gst_dsexample_transform_ip])
    - [dsexample_lib/redis_client.h]      ([RedisClient],
                                           [VLMRedisStreamManager]) *)

From Stdlib Require Import ZArith Lia String Ascii DecimalString DecimalN DecimalPos.
From stdpp Require Import gmap strings list fin_maps sorting.

Local Open Scope Z_scope.

(* ===================================================================== *)
(** * Machine integers *)
(* ===================================================================== *)

(** C integer conversions, written out on [Z]. *)
Definition to_uint32 (z : Z) : Z := z mod 2 ^ 32.
Definition to_uint64 (z : Z) : Z := z mod 2 ^ 64.
Definition to_int32 (z : Z) : Z := (z + 2 ^ 31) mod 2 ^ 32 - 2 ^ 31.

(* ===================================================================== *)
(** * ThreadSafeQueue (threadsafe_queue.h) *)
(* ===================================================================== *)

(** Every member function below runs under the queue's mutex [m_] (a
    [lock_guard] or [unique_lock] held for the whole body), so each one is a
    single atomic transition of the queue state.  [terminate] takes no lock
    but only stores to the atomic flag. *)
Module ThreadSafeQueue.
Section Queue.
Context {T : Type}.

(** [data_queue_] is a [std::queue]: front at the head of the list, pushes
    at its end.  The elements are [shared_ptr<T>] made by [push]; the
    program never calls [share_push], so no element is a null pointer. *)
Record t : Type := mk {
  data_queue_ : list T;
  is_terminated_ : bool
}.

(** [ThreadSafeQueue() = default]. *)
Definition init : t := mk [] false.

Definition push (new_value : T) (q : t) : t :=
  mk (data_queue_ q ++ [new_value]) (is_terminated_ q).

Definition empty (q : t) : bool :=
  match data_queue_ q with [] => true | _ :: _ => false end.

(** [int size() const]: the [size_t] count converted to [int]. *)
Definition size (q : t) : Z := to_int32 (Z.of_nat (length (data_queue_ q))).

(** [bool try_pop(T &value)]: [value] is overwritten only on success. *)
Definition try_pop (value : T) (q : t) : bool * T * t :=
  match data_queue_ q with
  | [] => (false, value, q)
  | front :: rest => (true, front, mk rest (is_terminated_ q))
  end.

(** [std::shared_ptr<T> try_pop()]: [None] is the empty pointer. *)
Definition try_pop_ptr (q : t) : option T * t :=
  match data_queue_ q with
  | [] => (None, q)
  | front :: rest => (Some front, mk rest (is_terminated_ q))
  end.

(** Outcome of a call that waits on the condition variable: either the
    wait predicate is false in the current state and the caller stays
    suspended, or the call returns a pointer ([None] is [nullptr]). *)
Inductive wait_result : Type :=
| Blocks
| Returns (res : option T) (q' : t).

(** The predicate given to [cond_.wait] by [wait_and_pop()]. *)
Definition wait_pred (q : t) : bool := negb (empty q) || is_terminated_ q.

(** [std::shared_ptr<T> wait_and_pop()]. *)
Definition wait_and_pop (q : t) : wait_result :=
  if wait_pred q then
    if is_terminated_ q then Returns None q
    else match data_queue_ q with
         | front :: rest => Returns (Some front) (mk rest (is_terminated_ q))
         | [] => Blocks (* excluded by the wait predicate *)
         end
  else Blocks.

Definition terminate (q : t) : t := mk (data_queue_ q) true.

(** [k] successive [wait_and_pop] calls by the consumer, each of which
    hands back an item; [None] as soon as one call blocks or returns
    [nullptr]. *)
Fixpoint consume (k : nat) (q : t) : option (list T * t) :=
  match k with
  | O => Some ([], q)
  | S k' =>
      match wait_and_pop q with
      | Returns (Some x) q' =>
          match consume k' q' with
          | Some (xs, q'') => Some (x :: xs, q'')
          | None => None
          end
      | _ => None
      end
  end.

(** Repeated [try_pop()] until the queue reports empty ([fuel] bounds the
    number of calls). *)
Fixpoint drain (fuel : nat) (q : t) : list T * t :=
  match fuel with
  | O => ([], q)
  | S fuel' =>
      match try_pop_ptr q with
      | (Some x, q') => let '(xs, q'') := drain fuel' q' in (x :: xs, q'')
      | (None, q') => ([], q')
      end
  end.

(** [void wait_and_pop(T &value)]: this overload waits for an item only;
    its predicate does not read [is_terminated_]. *)
Inductive wait_ref_result : Type :=
| RefBlocks
| RefReturns (value : T) (q' : t).

Definition wait_and_pop_ref (q : t) : wait_ref_result :=
  if negb (empty q) then
    match data_queue_ q with
    | front :: rest => RefReturns front (mk rest (is_terminated_ q))
    | [] => RefBlocks (* excluded by the wait predicate *)
    end
  else RefBlocks.

(** [items] pushed one after the other with [push]. *)
Definition push_all (items : list T) (q : t) : t :=
  fold_left (fun q v => push v q) items q.

(** The calls any thread can make on the queue, and their effect on its
    state (a call that blocks leaves the state as it is). *)
Inductive call : Type :=
| CallPush (v : T)
| CallTryPop
| CallWaitAndPop
| CallTerminate.

Definition after_call (q : t) (c : call) : t :=
  match c with
  | CallPush v => push v q
  | CallTryPop => snd (try_pop_ptr q)
  | CallWaitAndPop =>
      match wait_and_pop q with
      | Blocks => q
      | Returns _ q' => q'
      end
  | CallTerminate => terminate q
  end.

Definition after_calls (q : t) (cs : list call) : t := fold_left after_call cs q.

End Queue.
Arguments t : clear implicits.
Arguments call : clear implicits.
End ThreadSafeQueue.

Module TSQ := ThreadSafeQueue.

(* ===================================================================== *)
(** * The sampling path of the plugin (gstdsexample.cpp) *)
(* ===================================================================== *)

(** Per-frame metadata handed over by the pipeline ([NvDsFrameMeta] of the
    DeepStream SDK): only the members the plugin reads. *)
Module NvDsFrameMeta.
Record t : Type := mk {
  buf_pts : Z;      (* guint64 *)
  source_id : Z;    (* guint *)
  frame_num : Z     (* gint *)
}.
End NvDsFrameMeta.

(** Modelled from the spec: [struct VLMFrameData] is declared in
    gstdsexample.h, which is not among the sources.  The members are those
    assigned in [gst_dsexample_transform_ip]; their widths follow the spec's
    SampledEvent (source id and sizes 32 bit, frame number and timestamp
    64 bit). *)
Module VLMFrameData.
Record t : Type := mk {
  width : Z;
  height : Z;
  timestamp : Z;
  source_id : Z;
  frame_number : Z;
  format : string
}.
(** A default-constructed value (the local [VLMFrameData dropped]). *)
Definition default : t := mk 0 0 0 0 0 "".
End VLMFrameData.

(** The three numbers of one line printed by [g_print] after an enqueue
    (source id and frame index with [%d], queue size with [%u]). *)
Record enqueue_line : Type := EnqueueLine {
  line_source_id : Z;
  line_frame_index : Z;
  line_size : Z
}.

Inductive GstFlowReturn : Type := GST_FLOW_OK | GST_FLOW_ERROR.

(** Modelled from the spec: [struct GstDsExample] is declared in
    gstdsexample.h, which is not among the sources.  These are the members
    the sampling path uses; [vlm_frame_counter] is the spec's 64-bit counter,
    [vlm_queue_max_size] and [vlm_frame_interval] are the [guint] values
    stored by [gst_dsexample_set_property]. *)
Record GstDsExample : Type := mkDsExample {
  frame_num : Z;
  vlm_enabled : bool;
  vlm_thread_running : bool;
  vlm_frame_counter : Z;
  vlm_frame_interval : Z;
  vlm_queue_max_size : Z;
  vlm_frame_queue : TSQ.t VLMFrameData.t;
  printed : list enqueue_line
}.

(** The range [gst_dsexample_class_init] installs for the property
    "vlm-queue-size" (minimum 1, maximum 1000); "vlm-frame-interval" has the
    range 1..300. *)
Definition valid_queue_size (c : Z) : Prop := 1 <= c <= 1000.

(** The element as left by [gst_dsexample_init]. *)
Definition gst_dsexample_init : GstDsExample :=
  {| frame_num := 0;
     vlm_enabled := true;
     vlm_thread_running := false;
     vlm_frame_counter := 0;
     vlm_frame_interval := 30;
     vlm_queue_max_size := 100;
     vlm_frame_queue := TSQ.init;
     printed := [] |}.

Section AdmitPath.
Context {T : Type}.
Variable max_size : Z.   (* vlm_queue_max_size *)
Variable dropped : T.    (* the local default-constructed [dropped] *)

(** The producer's sequence of gstdsexample.cpp, lines 671-677:
<<
    if (queue->size() >= max_size) { T dropped; queue->try_pop(dropped); }
    queue->push(std::move(item));
>>
    run with no other thread in between.  [size()] is an [int] compared
    with a [guint], hence converted to unsigned. *)
Definition evict_if_full (q : TSQ.t T) : TSQ.t T :=
  if max_size <=? to_uint32 (TSQ.size q)
  then snd (TSQ.try_pop dropped q)
  else q.

Definition enqueue_dropping_oldest (item : T) (q : TSQ.t T) : TSQ.t T :=
  TSQ.push item (evict_if_full q).

(** The same sequence for a list of items, in order. *)
Definition enqueue_all (items : list T) (q : TSQ.t T) : TSQ.t T :=
  fold_left (fun q item => enqueue_dropping_oldest item q) items q.

(** ** The same sequence as three separately locked calls

    [size()], [try_pop(dropped)] and [push(item)] each take and release
    [m_] on their own, so another thread may run a queue operation between
    any two of them.  [producer_pc] is the producer's position in the
    sequence. *)
Inductive producer_pc : Type :=
| AtSizeCheck   (* about to call size() *)
| AtTryPop      (* size() >= max_size was true; about to call try_pop *)
| AtPush        (* about to call push *)
| Finished.

Definition producer_step (item : T) (pc : producer_pc) (q : TSQ.t T)
  : producer_pc * TSQ.t T :=
  match pc with
  | AtSizeCheck =>
      if max_size <=? to_uint32 (TSQ.size q) then (AtTryPop, q) else (AtPush, q)
  | AtTryPop => (AtPush, snd (TSQ.try_pop dropped q))
  | AtPush => (Finished, TSQ.push item q)
  | Finished => (Finished, q)
  end.

(** Which thread the scheduler runs next: the producer's next call, a
    [size()] query from another thread, or the worker's [wait_and_pop()]. *)
Inductive action : Type := ProducerCall | OtherSize | WorkerPop.

(** What the other threads saw. *)
Inductive observation : Type :=
| SawSize (n : Z)
| Popped (res : option T).

Definition sched_step (item : T) (a : action) (pc : producer_pc) (q : TSQ.t T)
  : producer_pc * TSQ.t T * list observation :=
  match a with
  | ProducerCall => (producer_step item pc q, [])
  | OtherSize => (pc, q, [SawSize (TSQ.size q)])
  | WorkerPop =>
      match TSQ.wait_and_pop q with
      | TSQ.Blocks => (pc, q, [])   (* the worker stays suspended *)
      | TSQ.Returns res q' => (pc, q', [Popped res])
      end
  end.

Fixpoint run_schedule (item : T) (sched : list action)
    (pc : producer_pc) (q : TSQ.t T)
  : producer_pc * TSQ.t T * list observation :=
  match sched with
  | [] => (pc, q, [])
  | a :: rest =>
      let '(pc1, q1, obs1) := sched_step item a pc q in
      let '(pc2, q2, obs2) := run_schedule item rest pc1 q1 in
      (pc2, q2, obs1 ++ obs2)
  end.

(** What holds between any two calls of a run that starts within
    capacity: the queue is within capacity, and has a free slot once the
    producer is about to push. *)
Definition between_calls (pc : producer_pc) (q : TSQ.t T) : Prop :=
  Z.of_nat (length (TSQ.data_queue_ q)) <= max_size /\
  (pc = AtPush -> Z.of_nat (length (TSQ.data_queue_ q)) <= max_size - 1).

(** The sizes reported to other threads during a run. *)
Definition seen_sizes (obs : list observation) : list Z :=
  omap (fun o => match o with SawSize n => Some n | Popped _ => None end) obs.

End AdmitPath.

(** The input buffer as far as [gst_dsexample_transform_ip] inspects it
    before the sampling block: whether [cudaSetDevice] succeeds, whether the
    buffer maps, whether the surface passes [CHECK_NVDS_MEMORY_AND_GPUID],
    and the batch metadata ([None] when [gst_buffer_get_nvds_batch_meta]
    returns null). *)
Record GstBuffer : Type := mkBuffer {
  cuda_ok : bool;
  map_ok : bool;
  gpu_id_ok : bool;
  batch_meta : option (list NvDsFrameMeta.t)
}.

Definition healthy (b : GstBuffer) : Prop :=
  cuda_ok b = true /\ map_ok b = true /\ gpu_id_ok b = true /\
  is_Some (batch_meta b).

(** The mock frame built for one source of an admitted batch. *)
Definition make_vlm_frame (frame_meta : NvDsFrameMeta.t) : VLMFrameData.t :=
  {| VLMFrameData.width := 1920;
     VLMFrameData.height := 1080;
     VLMFrameData.timestamp := to_uint64 (NvDsFrameMeta.buf_pts frame_meta);
     VLMFrameData.source_id := to_uint32 (NvDsFrameMeta.source_id frame_meta);
     VLMFrameData.frame_number := to_uint64 (NvDsFrameMeta.frame_num frame_meta);
     VLMFrameData.format := "RGB" |}.

(** The admission test of the loop body. *)
Definition admits (ds : GstDsExample) : bool :=
  vlm_frame_counter ds mod vlm_frame_interval ds =? 0.

(** Body of the [if] inside the frame loop: build the frame, make room,
    push, print. *)
Definition enqueue_frame (ds : GstDsExample) (frame_meta : NvDsFrameMeta.t)
  : GstDsExample :=
  let frame_index := to_uint32 (NvDsFrameMeta.frame_num frame_meta) in
  let vlm_frame := make_vlm_frame frame_meta in
  let q := enqueue_dropping_oldest (vlm_queue_max_size ds) VLMFrameData.default
             vlm_frame (vlm_frame_queue ds) in
  {| frame_num := frame_num ds;
     vlm_enabled := vlm_enabled ds;
     vlm_thread_running := vlm_thread_running ds;
     vlm_frame_counter := vlm_frame_counter ds;
     vlm_frame_interval := vlm_frame_interval ds;
     vlm_queue_max_size := vlm_queue_max_size ds;
     vlm_frame_queue := q;
     printed := printed ds ++
       [EnqueueLine (to_int32 (NvDsFrameMeta.source_id frame_meta))
                    (to_int32 frame_index)
                    (to_uint32 (TSQ.size q))] |}.

(** All frames of an admitted batch, as one fold. *)
Definition enqueue_frames (ds : GstDsExample) (frames : list NvDsFrameMeta.t)
  : GstDsExample := fold_left enqueue_frame frames ds.

(** The loop over [batch_meta->frame_meta_list]. *)
Fixpoint sample_frames (ds : GstDsExample) (l_frame : list NvDsFrameMeta.t)
  : GstDsExample :=
  match l_frame with
  | [] => ds
  | frame_meta :: next =>
      sample_frames (if admits ds then enqueue_frame ds frame_meta else ds) next
  end.

Definition bump_frame_num (ds : GstDsExample) : GstDsExample :=
  {| frame_num := to_uint64 (frame_num ds + 1);
     vlm_enabled := vlm_enabled ds;
     vlm_thread_running := vlm_thread_running ds;
     vlm_frame_counter := vlm_frame_counter ds;
     vlm_frame_interval := vlm_frame_interval ds;
     vlm_queue_max_size := vlm_queue_max_size ds;
     vlm_frame_queue := vlm_frame_queue ds;
     printed := printed ds |}.

Definition bump_vlm_frame_counter (ds : GstDsExample) : GstDsExample :=
  {| frame_num := frame_num ds;
     vlm_enabled := vlm_enabled ds;
     vlm_thread_running := vlm_thread_running ds;
     vlm_frame_counter := to_uint64 (vlm_frame_counter ds + 1);
     vlm_frame_interval := vlm_frame_interval ds;
     vlm_queue_max_size := vlm_queue_max_size ds;
     vlm_frame_queue := vlm_frame_queue ds;
     printed := printed ds |}.

(** [gst_dsexample_transform_ip]: the early exits, then the sampling block
    (lines 647-682). *)
Definition gst_dsexample_transform_ip (ds : GstDsExample) (inbuf : GstBuffer)
  : GstFlowReturn * GstDsExample :=
  let ds := bump_frame_num ds in
  if negb (cuda_ok inbuf) then (GST_FLOW_ERROR, ds)
  else if negb (map_ok inbuf) then (GST_FLOW_ERROR, ds)
  else if negb (gpu_id_ok inbuf) then (GST_FLOW_ERROR, ds)
  else match batch_meta inbuf with
       | None => (GST_FLOW_ERROR, ds)
       | Some frame_meta_list =>
           if vlm_enabled ds
           then (GST_FLOW_OK,
                 sample_frames (bump_vlm_frame_counter ds) frame_meta_list)
           else (GST_FLOW_OK, ds)
       end.

(** A stream of buffers through the element; the flow returns are dropped. *)
Definition process_batches (ds : GstDsExample) (bufs : list GstBuffer)
  : GstDsExample :=
  fold_left (fun ds b => snd (gst_dsexample_transform_ip ds b)) bufs ds.

(* ===================================================================== *)
(** * The Redis client (redis_client.h) *)
(* ===================================================================== *)

(** [redisReply] of hiredis: the reply types the client looks at. *)
#[warnings="-register-all"]
Inductive redisReply : Type :=
| REDIS_REPLY_STRING (str : string)
| REDIS_REPLY_ARRAY (element : list redisReply)
| REDIS_REPLY_INTEGER (integer : Z)
| REDIS_REPLY_NIL
| REDIS_REPLY_STATUS (str : string)
| REDIS_REPLY_ERROR (str : string).

(** [std::string(r->str, r->len)]: hiredis leaves [str] null and [len] zero
    in replies that carry no text, which gives the empty string. *)
Definition reply_str (r : redisReply) : string :=
  match r with
  | REDIS_REPLY_STRING s | REDIS_REPLY_STATUS s | REDIS_REPLY_ERROR s => s
  | _ => ""
  end.

(** What [redisConnect] hands back: a null pointer, a context whose [err] is
    set, or a usable context. *)
Inductive redisContext : Type := CtxNull | CtxErr | CtxOk.

(** How a member function ends: it returns, it lets a C++ exception escape,
    or it dereferences a null pointer. *)
Inductive exception : Type := invalid_argument | out_of_range.

Inductive outcome (A : Type) : Type :=
| Returned (a : A)
| Thrown (e : exception)
| NullDeref.
Arguments Returned {A} a.
Arguments Thrown {A} e.
Arguments NullDeref {A}.

(** Sequencing: the first exception or fault ends the call. *)
#[global] Instance outcome_bind : MBind outcome := fun A B k m =>
  match m with
  | Returned a => k a
  | Thrown e => Thrown e
  | NullDeref => NullDeref
  end.

(** ** Text helpers of the C++ standard library *)

(** [std::to_string] of an unsigned value and [printf]'s [%d]. *)
Definition to_string (n : Z) : string := NilZero.string_of_uint (N.to_uint (Z.to_N n)).
Definition format_d (n : Z) : string := NilZero.string_of_int (Z.to_int n).

(** [s.find(c)]: position of the first occurrence, [None] for [npos]. *)
Fixpoint find_char (c : ascii) (s : string) : option nat :=
  match s with
  | EmptyString => None
  | String a rest =>
      if Ascii.eqb a c then Some O
      else match find_char c rest with Some i => Some (S i) | None => None end
  end.

(** [haystack.find(needle) != npos]. *)
Definition contains (needle haystack : string) : bool :=
  match index 0 needle haystack with Some _ => true | None => false end.

Definition isspace (c : ascii) : bool :=
  let n := nat_of_ascii c in
  (Nat.eqb n 32 || (Nat.leb 9 n && Nat.leb n 13))%bool.

Definition digit_value (c : ascii) : option Z :=
  let n := Z.of_nat (nat_of_ascii c) in
  if (48 <=? n) && (n <=? 57) then Some (n - 48) else None.

Fixpoint skip_spaces (s : string) : string :=
  match s with
  | String a rest => if isspace a then skip_spaces rest else s
  | EmptyString => s
  end.

(** The digits at the front of [s]: their value and how many were read. *)
Fixpoint read_digits (s : string) (acc : Z) (count : nat) : Z * nat :=
  match s with
  | String a rest =>
      match digit_value a with
      | Some d => read_digits rest (10 * acc + d) (S count)
      | None => (acc, count)
      end
  | EmptyString => (acc, count)
  end.

(** [std::stoull(s)] (base 10, through [strtoull]): leading white space, an
    optional sign, then digits; no digits throws [invalid_argument], a
    magnitude above [ULLONG_MAX] throws [out_of_range], and a minus sign
    negates in 64-bit unsigned arithmetic. *)
Definition stoull (s : string) : outcome Z :=
  let s1 := skip_spaces s in
  let '(negative, s2) :=
    match s1 with
    | String "-" rest => (true, rest)
    | String "+" rest => (false, rest)
    | _ => (false, s1)
    end in
  match read_digits s2 0 O with
  | (_, O) => Thrown invalid_argument
  | (v, S _) =>
      if 2 ^ 64 <=? v then Thrown out_of_range
      else Returned (if negative then to_uint64 (- v) else v)
  end.

(** ** Stream messages *)

Record StreamMessage : Type := mkStreamMessage {
  id : string;
  fields : gmap string string;
  timestamp : Z
}.

(** [StreamMessage()]. *)
Definition empty_message : StreamMessage := mkStreamMessage "" ∅ 0.

(** The loop [for (i = 0; i < n; i += 2) if (i + 1 < n) m[key_i] = value_i]
    over the elements of an array reply. *)
Fixpoint fill_fields (element : list redisReply) (m : gmap string string)
  : gmap string string :=
  match element with
  | key :: value :: rest => fill_fields rest (<[reply_str key := reply_str value]> m)
  | _ => m
  end.

(** [parse_stream_message]; [None] is a null [msg_reply]. *)
Definition parse_stream_message (msg_reply : option redisReply)
  : outcome StreamMessage :=
  match msg_reply with
  | Some (REDIS_REPLY_ARRAY (element0 :: element1 :: _)) =>
      message ←
        match element0 with
        | REDIS_REPLY_STRING s =>
            match find_char "-" s with
            | Some dash_pos =>
                ts ← stoull (substring 0 dash_pos s);
                Returned (mkStreamMessage s ∅ ts)
            | None => Returned (mkStreamMessage s ∅ 0)
            end
        | _ => Returned empty_message
        end;
      match element1 with
      | REDIS_REPLY_ARRAY fs =>
          Returned (mkStreamMessage (id message) (fill_fields fs (fields message))
                                    (timestamp message))
      | _ => Returned message
      end
  | _ => Returned empty_message
  end.

(** The loop shared by the two reply parsers: parse every entry, keep the
    messages whose id is not empty. *)
Fixpoint parse_messages (element : list redisReply) (messages : list StreamMessage)
  : outcome (list StreamMessage) :=
  match element with
  | [] => Returned messages
  | e :: rest =>
      msg ← parse_stream_message (Some e);
      parse_messages rest
        (if String.eqb (id msg) "" then messages else messages ++ [msg])
  end.

(** [parse_xrange_reply]; [None] is a null [reply]. *)
Definition parse_xrange_reply (reply : option redisReply)
  : outcome (list StreamMessage) :=
  match reply with
  | Some (REDIS_REPLY_ARRAY element) => parse_messages element []
  | _ => Returned []
  end.

(** The outer loop of [parse_xread_reply] over the per-stream entries. *)
Fixpoint parse_streams (element : list redisReply) (messages : list StreamMessage)
  : outcome (list StreamMessage) :=
  match element with
  | [] => Returned messages
  | stream_reply :: rest =>
      messages' ←
        match stream_reply with
        | REDIS_REPLY_ARRAY (_ :: REDIS_REPLY_ARRAY msgs :: _) =>
            parse_messages msgs messages
        | _ => Returned messages
        end;
      parse_streams rest messages'
  end.

(** [parse_xread_reply]. *)
Definition parse_xread_reply (reply : option redisReply)
  : outcome (list StreamMessage) :=
  match reply with
  | Some (REDIS_REPLY_ARRAY element) => parse_streams element []
  | _ => Returned []
  end.

(** ** The client object *)

Record RedisClient : Type := mkRedisClient {
  host_ : string;
  port_ : Z;
  password_ : string;
  context_ : bool;      (* whether [context_] is a non-null pointer *)
  connected_ : bool
}.

(** [RedisClient(host, port, password)]. *)
Definition new_RedisClient (host : string) (port : Z) (password : string)
  : RedisClient :=
  mkRedisClient host port password false false.

Definition set_connection (c : RedisClient) (ctx conn : bool) : RedisClient :=
  mkRedisClient (host_ c) (port_ c) (password_ c) ctx conn.

(** [std::map] iterates in key order: the pairs of a field map as [xadd]
    walks them. *)
Definition key_le (x y : string * string) : Prop := String.leb x.1 y.1 = true.

#[global] Instance key_le_dec : RelDecision key_le :=
  fun x y => decide (String.leb x.1 y.1 = true).

Definition in_key_order (m : gmap string string) : list (string * string) :=
  merge_sort key_le (map_to_list m).

Definition flatten_pairs (l : list (string * string)) : list string :=
  flat_map (fun kv => [kv.1; kv.2]) l.

(** [s.c_str()] as hiredis reads it: the text up to the first NUL byte.
    [xadd] hands [redisCommandArgv] the [c_str()] of every word with a null
    length array, and the [%s] arguments of [redisCommand] are C strings
    too, so every word a caller supplies goes out cut at its first NUL
    byte. *)
Fixpoint c_str (s : string) : string :=
  match s with
  | EmptyString => EmptyString
  | String a rest =>
      if Ascii.eqb a "000"%char then EmptyString else String a (c_str rest)
  end.

(** The command lines the client sends, one word per list element (the
    [%s] and [%d] arguments of [redisCommand] each fill one word). *)
Definition XADD (stream_key : string) (fs : gmap string string) : list string :=
  c_str <$> (["XADD"; stream_key; "*"] ++ flatten_pairs (in_key_order fs)).

Definition XREAD (stream_key start_id : string) (count block_ms : Z) : list string :=
  if 0 <? block_ms
  then ["XREAD"; "BLOCK"; format_d block_ms; "COUNT"; format_d count;
        "STREAMS"; c_str stream_key; c_str start_id]
  else ["XREAD"; "COUNT"; format_d count; "STREAMS";
        c_str stream_key; c_str start_id].

Definition XRANGE (stream_key start end_ : string) (count : Z) : list string :=
  if 0 <? count
  then ["XRANGE"; c_str stream_key; c_str start; c_str end_;
        "COUNT"; format_d count]
  else ["XRANGE"; c_str stream_key; c_str start; c_str end_].

Definition XGROUP_CREATE (stream_key group_name start_id : string) : list string :=
  ["XGROUP"; "CREATE"; c_str stream_key; c_str group_name; c_str start_id;
   "MKSTREAM"].

Definition XREADGROUP (group_name consumer_name stream_key : string)
    (count block_ms : Z) : list string :=
  if 0 <? block_ms
  then ["XREADGROUP"; "GROUP"; c_str group_name; c_str consumer_name; "BLOCK";
        format_d block_ms; "COUNT"; format_d count; "STREAMS";
        c_str stream_key; ">"]
  else ["XREADGROUP"; "GROUP"; c_str group_name; c_str consumer_name;
        "COUNT"; format_d count; "STREAMS"; c_str stream_key; ">"].

Definition XACK (stream_key group_name message_id : string) : list string :=
  ["XACK"; c_str stream_key; c_str group_name; c_str message_id].

Definition XINFO_STREAM (stream_key : string) : list string :=
  ["XINFO"; "STREAM"; c_str stream_key].

Section Client.
(** Everything outside the process: the network and the Redis server.
    hiredis is the only way the client touches it. *)
Context {W : Type}.
(** [redisConnect(host, port)]. *)
Variable redisConnect : string -> Z -> W -> W * redisContext.
(** [redisCommand] / [redisCommandArgv] on a context; [None] is a null
    reply (the command could not be carried out on the connection). *)
Variable redisCommand : list string -> W -> W * option redisReply.

(** [connect()]. *)
Definition connect (c : RedisClient) (w : W) : outcome (bool * RedisClient * W) :=
  if connected_ c then Returned (true, c, w)
  else
    match redisConnect (c_str (host_ c)) (port_ c) w with
    | (w1, CtxNull) => Returned (false, set_connection c false (connected_ c), w1)
    | (w1, CtxErr) => Returned (false, set_connection c false (connected_ c), w1)
    | (w1, CtxOk) =>
        if String.eqb (password_ c) ""
        then Returned (true, set_connection c true true, w1)
        else
          match redisCommand ["AUTH"; c_str (password_ c)] w1 with
          | (w2, None) => NullDeref   (* [reply->type] on a null reply *)
          | (w2, Some (REDIS_REPLY_ERROR _)) =>
              Returned (false, set_connection c false (connected_ c), w2)
          | (w2, Some _) => Returned (true, set_connection c true true, w2)
          end
    end.

(** [disconnect()]. *)
Definition disconnect (c : RedisClient) : RedisClient :=
  set_connection c false false.

(** [is_connected()]. *)
Definition is_connected (c : RedisClient) : bool := connected_ c && context_ c.

(** [ensure_connected()]. *)
Definition ensure_connected (c : RedisClient) (w : W)
  : outcome (bool * RedisClient * W) :=
  if negb (is_connected c) then connect c w else Returned (true, c, w).

(** A client that is not connected and cannot reach the server. *)
Definition cannot_connect (c : RedisClient) (w : W) : Prop :=
  is_connected c = false /\
  exists c' w', connect c w = Returned (false, c', w').

(** [xadd]: the id the server assigned, or the empty string. *)
Definition xadd (stream_key : string) (fs : gmap string string)
    (c : RedisClient) (w : W) : outcome (string * RedisClient * W) :=
  '(ok, c, w) ← ensure_connected c w;
  if negb ok then Returned ("", c, w)
  else
    let '(w, reply) := redisCommand (XADD stream_key fs) w in
    let message_id :=
      match reply with
      | Some (REDIS_REPLY_STRING s) => s
      | _ => ""
      end in
    Returned (message_id, c, w).

(** [xread]. *)
Definition xread (stream_key start_id : string) (count block_ms : Z)
    (c : RedisClient) (w : W) : outcome (list StreamMessage * RedisClient * W) :=
  '(ok, c, w) ← ensure_connected c w;
  if negb ok then Returned ([], c, w)
  else
    let '(w, reply) := redisCommand (XREAD stream_key start_id count block_ms) w in
    messages ← parse_xread_reply reply;
    Returned (messages, c, w).

(** [xrange]. *)
Definition xrange (stream_key start end_ : string) (count : Z)
    (c : RedisClient) (w : W) : outcome (list StreamMessage * RedisClient * W) :=
  '(ok, c, w) ← ensure_connected c w;
  if negb ok then Returned ([], c, w)
  else
    let '(w, reply) := redisCommand (XRANGE stream_key start end_ count) w in
    messages ← parse_xrange_reply reply;
    Returned (messages, c, w).

(** [xgroup_create]; the error text is copied with
    [std::string error(reply->str)], which stops at a NUL byte. *)
Definition xgroup_create (stream_key group_name start_id : string)
    (c : RedisClient) (w : W) : outcome (bool * RedisClient * W) :=
  '(ok, c, w) ← ensure_connected c w;
  if negb ok then Returned (false, c, w)
  else
    let '(w, reply) :=
      redisCommand (XGROUP_CREATE stream_key group_name start_id) w in
    let success :=
      match reply with
      | Some (REDIS_REPLY_STATUS _) => true
      | Some (REDIS_REPLY_ERROR error) => contains "BUSYGROUP" (c_str error)
      | _ => false
      end in
    Returned (success, c, w).

(** [xreadgroup]. *)
Definition xreadgroup (group_name consumer_name stream_key : string)
    (count block_ms : Z) (c : RedisClient) (w : W)
  : outcome (list StreamMessage * RedisClient * W) :=
  '(ok, c, w) ← ensure_connected c w;
  if negb ok then Returned ([], c, w)
  else
    let '(w, reply) :=
      redisCommand (XREADGROUP group_name consumer_name stream_key count block_ms) w in
    messages ← parse_xread_reply reply;
    Returned (messages, c, w).

(** [xack]. *)
Definition xack (stream_key group_name message_id : string)
    (c : RedisClient) (w : W) : outcome (bool * RedisClient * W) :=
  '(ok, c, w) ← ensure_connected c w;
  if negb ok then Returned (false, c, w)
  else
    let '(w, reply) := redisCommand (XACK stream_key group_name message_id) w in
    let success :=
      match reply with
      | Some (REDIS_REPLY_INTEGER n) => 0 <? n
      | _ => false
      end in
    Returned (success, c, w).

(** [xinfo_stream]. *)
Definition xinfo_stream (stream_key : string) (c : RedisClient) (w : W)
  : outcome (gmap string string * RedisClient * W) :=
  '(ok, c, w) ← ensure_connected c w;
  if negb ok then Returned (∅, c, w)
  else
    let '(w, reply) := redisCommand (XINFO_STREAM stream_key) w in
    let info :=
      match reply with
      | Some (REDIS_REPLY_ARRAY element) => fill_fields element ∅
      | _ => ∅
      end in
    Returned (info, c, w).

(** ** VLMRedisStreamManager *)

Record VLMRedisStreamManager : Type := mkManager {
  redis_client_ : RedisClient;
  vlm_stream_ : string;
  frame_stream_ : string;
  consumer_group_ : string;
  consumer_name_ : string
}.

(** The host's wall clock in milliseconds, as
    [get_current_timestamp()] reads it from [system_clock]. *)
Variable system_clock_now : W -> Z.

Definition get_current_timestamp (w : W) : Z := to_uint64 (system_clock_now w).

(** The local [fields] of [add_vlm_result]; the two numbers arrive as
    [uint32_t] parameters. *)
Definition vlm_result_fields (frame_number source_id : Z)
    (vlm_response model_name : string) (w : W) : gmap string string :=
  <["type" := "vlm_result"]>
  (<["timestamp" := to_string (get_current_timestamp w)]>
  (<["model_name" := model_name]>
  (<["vlm_response" := vlm_response]>
  (<["source_id" := to_string (to_uint32 source_id)]>
  (<["frame_number" := to_string (to_uint32 frame_number)]> ∅))))).

(** [add_vlm_result]. *)
Definition add_vlm_result (frame_number source_id : Z)
    (vlm_response model_name : string) (mgr : VLMRedisStreamManager) (w : W)
  : outcome (string * VLMRedisStreamManager * W) :=
  let fs := vlm_result_fields frame_number source_id vlm_response model_name w in
  '(message_id, c, w) ← xadd (vlm_stream_ mgr) fs (redis_client_ mgr) w;
  Returned (message_id,
            mkManager c (vlm_stream_ mgr) (frame_stream_ mgr)
                      (consumer_group_ mgr) (consumer_name_ mgr),
            w).

(** [ack_message]. *)
Definition ack_message (stream message_id : string)
    (mgr : VLMRedisStreamManager) (w : W)
  : outcome (bool * VLMRedisStreamManager * W) :=
  '(ok, c, w) ← xack stream (consumer_group_ mgr) message_id (redis_client_ mgr) w;
  Returned (ok,
            mkManager c (vlm_stream_ mgr) (frame_stream_ mgr)
                      (consumer_group_ mgr) (consumer_name_ mgr),
            w).

End Client.

(* ===================================================================== *)
(** * The rest of the Redis client and of the stream manager *)
(* ===================================================================== *)

(** [std::stoi(s)] (through [strtol]): as [stoull], with the result
    required to fit an [int]. *)
Definition stoi (s : string) : outcome Z :=
  let s1 := skip_spaces s in
  let '(negative, s2) :=
    match s1 with
    | String "-" rest => (true, rest)
    | String "+" rest => (false, rest)
    | _ => (false, s1)
    end in
  match read_digits s2 0 O with
  | (_, O) => Thrown invalid_argument
  | (v, S _) =>
      let n := if negative then - v else v in
      if (n <? - 2 ^ 31) || (2 ^ 31 - 1 <? n) then Thrown out_of_range
      else Returned n
  end.

(** [StreamMessage(stream_id, data)]. *)
Definition new_StreamMessage (stream_id : string) (data : gmap string string)
  : outcome StreamMessage :=
  match find_char "-" stream_id with
  | Some dash_pos =>
      ts ← stoull (substring 0 dash_pos stream_id);
      Returned (mkStreamMessage stream_id data ts)
  | None => Returned (mkStreamMessage stream_id data 0)
  end.



Definition get_field_as_uint32 (msg : StreamMessage) (key : string) (default_value : Z)
  : outcome Z :=
  match fields msg !! key with
  | Some text => n ← stoi text; Returned (to_uint32 n)
  | None => Returned default_value
  end.


(** The loop of [get_vlm_results_by_source]: keep the messages whose
    "source_id" field reads as [source_id] (a missing field reads as 0),
    and stop once [filtered.size() >= count], an unsigned comparison. *)
Fixpoint filter_by_source (source_id count : Z)
    (messages filtered : list StreamMessage) : outcome (list StreamMessage) :=
  match messages with
  | [] => Returned filtered
  | msg :: rest =>
      sid ← get_field_as_uint32 msg "source_id" 0;
      if sid =? source_id then
        let filtered := filtered ++ [msg] in
        if to_uint64 count <=? Z.of_nat (length filtered) then Returned filtered
        else filter_by_source source_id count rest filtered
      else filter_by_source source_id count rest filtered
  end.

Definition SET (key value : string) (ttl_seconds : Z) : list string :=
  if 0 <? ttl_seconds
  then ["SETEX"; c_str key; format_d ttl_seconds; c_str value]
  else ["SET"; c_str key; c_str value].

Definition PUBLISH (channel message : string) : list string :=
  ["PUBLISH"; c_str channel; c_str message].

Section ClientMore.
Context {W : Type}.
Variable redisConnect : string -> Z -> W -> W * redisContext.
Variable redisCommand : list string -> W -> W * option redisReply.
Variable system_clock_now : W -> Z.

(** [set]. *)
Definition set (key value : string) (ttl_seconds : Z) (c : RedisClient) (w : W)
  : outcome (bool * RedisClient * W) :=
  '(ok, c, w) ← ensure_connected redisConnect redisCommand c w;
  if negb ok then Returned (false, c, w)
  else
    let '(w, reply) := redisCommand (SET key value ttl_seconds) w in
    let success :=
      match reply with
      | Some (REDIS_REPLY_STATUS _) => true
      | _ => false
      end in
    Returned (success, c, w).

(** [publish]. *)
Definition publish (channel message : string) (c : RedisClient) (w : W)
  : outcome (bool * RedisClient * W) :=
  '(ok, c, w) ← ensure_connected redisConnect redisCommand c w;
  if negb ok then Returned (false, c, w)
  else
    let '(w, reply) := redisCommand (PUBLISH channel message) w in
    let success :=
      match reply with
      | Some (REDIS_REPLY_INTEGER _) => true
      | _ => false
      end in
    Returned (success, c, w).

Definition set_client (mgr : VLMRedisStreamManager) (c : RedisClient)
  : VLMRedisStreamManager :=
  mkManager c (vlm_stream_ mgr) (frame_stream_ mgr)
            (consumer_group_ mgr) (consumer_name_ mgr).

(** [VLMRedisStreamManager(redis_host, redis_port)]: connect, and on
    success create the consumer group on both streams. *)
Definition new_VLMRedisStreamManager (redis_host : string) (redis_port : Z) (w : W)
  : outcome (VLMRedisStreamManager * W) :=
  let mgr := mkManager (new_RedisClient redis_host redis_port "")
               "vlm:results:stream" "vlm:frames:stream"
               "vlm_processors" "deepstream_vlm" in
  '(ok, c, w) ← connect redisConnect redisCommand (redis_client_ mgr) w;
  if negb ok then Returned (set_client mgr c, w)
  else
    '(_, c, w) ← xgroup_create redisConnect redisCommand
                   (vlm_stream_ mgr) (consumer_group_ mgr) "0" c w;
    '(_, c, w) ← xgroup_create redisConnect redisCommand
                   (frame_stream_ mgr) (consumer_group_ mgr) "0" c w;
    Returned (set_client mgr c, w).

(** The local [fields] of [add_frame_metadata]. *)
Definition frame_metadata_fields (frame_number source_id width height : Z)
    (format : string) (w : W) : gmap string string :=
  <["type" := "frame_metadata"]>
  (<["timestamp" := to_string (get_current_timestamp system_clock_now w)]>
  (<["format" := format]>
  (<["height" := to_string (to_uint32 height)]>
  (<["width" := to_string (to_uint32 width)]>
  (<["source_id" := to_string (to_uint32 source_id)]>
  (<["frame_number" := to_string (to_uint32 frame_number)]> ∅)))))).

(** [add_frame_metadata]. *)
Definition add_frame_metadata (frame_number source_id width height : Z)
    (format : string) (mgr : VLMRedisStreamManager) (w : W)
  : outcome (string * VLMRedisStreamManager * W) :=
  let fs := frame_metadata_fields frame_number source_id width height format w in
  '(message_id, c, w) ← xadd redisConnect redisCommand
                          (frame_stream_ mgr) fs (redis_client_ mgr) w;
  Returned (message_id, set_client mgr c, w).



(** [get_vlm_results_by_source]; [count * 2] is an [int] product, exact
    for [|count| < 2^30]. *)
Definition get_vlm_results_by_source (source_id count : Z)
    (mgr : VLMRedisStreamManager) (w : W)
  : outcome (list StreamMessage * VLMRedisStreamManager * W) :=
  '(messages, c, w) ← xrange redisConnect redisCommand
                        (vlm_stream_ mgr) "-" "+" (count * 2) (redis_client_ mgr) w;
  filtered ← filter_by_source (to_uint32 source_id) count messages [];
  Returned (filtered, set_client mgr c, w).

(** [get_vlm_stream_stats] and [get_frame_stream_stats]. *)
Definition get_vlm_stream_stats (mgr : VLMRedisStreamManager) (w : W)
  : outcome (gmap string string * VLMRedisStreamManager * W) :=
  '(info, c, w) ← xinfo_stream redisConnect redisCommand
                    (vlm_stream_ mgr) (redis_client_ mgr) w;
  Returned (info, set_client mgr c, w).

Definition get_frame_stream_stats (mgr : VLMRedisStreamManager) (w : W)
  : outcome (gmap string string * VLMRedisStreamManager * W) :=
  '(info, c, w) ← xinfo_stream redisConnect redisCommand
                    (frame_stream_ mgr) (redis_client_ mgr) w;
  Returned (info, set_client mgr c, w).

(** [configure_streams]. *)
Definition configure_streams (vlm_stream frame_stream consumer_group : string)
    (mgr : VLMRedisStreamManager) (w : W)
  : outcome (VLMRedisStreamManager * W) :=
  let mgr := mkManager (redis_client_ mgr) vlm_stream frame_stream
               consumer_group (consumer_name_ mgr) in
  '(_, c, w) ← xgroup_create redisConnect redisCommand
                 vlm_stream consumer_group "0" (redis_client_ mgr) w;
  '(_, c, w) ← xgroup_create redisConnect redisCommand
                 frame_stream consumer_group "0" c w;
  Returned (set_client mgr c, w).

End ClientMore.

(* ===================================================================== *)
(** * The worker thread and the element's start and stop (gstdsexample.cpp) *)
(* ===================================================================== *)

(** A double quote, for the JSON text below. *)
Definition dquote : string := String "034"%char EmptyString.

Definition quoted (s : string) : string := dquote +:+ s +:+ dquote.

(** The placeholder answer of [gst_dsexample_send_to_vlm_service]. *)
Definition vlm_response : string :=
  "{ " +:+ quoted "description" +:+ ": "
       +:+ quoted "A person riding a horse on a beach." +:+ ", "
  +:+ quoted "objects" +:+ ": [ {" +:+ quoted "label" +:+ ": " +:+ quoted "person"
  +:+ ", " +:+ quoted "confidence" +:+ ": 0.98}, "
  +:+ "{" +:+ quoted "label" +:+ ": " +:+ quoted "horse"
  +:+ ", " +:+ quoted "confidence" +:+ ": 0.95}, "
  +:+ "{" +:+ quoted "label" +:+ ": " +:+ quoted "beach"
  +:+ ", " +:+ quoted "confidence" +:+ ": 0.90} ] }".

(** The element together with the two members the worker reads besides
    those of [GstDsExample] above: [redis_enabled] and the shared pointer
    [vlm_stream_manager] ([None] when null). *)
Record VlmElement : Type := mkVlmElement {
  element : GstDsExample;
  redis_enabled : bool;
  vlm_stream_manager : option VLMRedisStreamManager
}.

Definition set_vlm_frame_queue (ds : GstDsExample) (q : TSQ.t VLMFrameData.t)
  : GstDsExample :=
  {| frame_num := frame_num ds;
     vlm_enabled := vlm_enabled ds;
     vlm_thread_running := vlm_thread_running ds;
     vlm_frame_counter := vlm_frame_counter ds;
     vlm_frame_interval := vlm_frame_interval ds;
     vlm_queue_max_size := vlm_queue_max_size ds;
     vlm_frame_queue := q;
     printed := printed ds |}.

Definition set_vlm_thread_running (ds : GstDsExample) (running : bool)
  : GstDsExample :=
  {| frame_num := frame_num ds;
     vlm_enabled := vlm_enabled ds;
     vlm_thread_running := running;
     vlm_frame_counter := vlm_frame_counter ds;
     vlm_frame_interval := vlm_frame_interval ds;
     vlm_queue_max_size := vlm_queue_max_size ds;
     vlm_frame_queue := vlm_frame_queue ds;
     printed := printed ds |}.

(** The end of [gst_dsexample_start]: the worker is started only when the
    resource set-up before it went through ([resources_ok]; any failure
    there jumps to [error] and returns FALSE). *)
Definition gst_dsexample_start (resources_ok : bool) (ds : GstDsExample)
  : bool * GstDsExample :=
  if resources_ok then
    (true, if vlm_enabled ds then set_vlm_thread_running ds true else ds)
  else (false, ds).

(** The beginning of [gst_dsexample_stop]: clear the flag, terminate the
    queue (then join the worker). *)
Definition gst_dsexample_stop (ds : GstDsExample) : GstDsExample :=
  if vlm_enabled ds && vlm_thread_running ds then
    set_vlm_frame_queue (set_vlm_thread_running ds false)
                        (TSQ.terminate (vlm_frame_queue ds))
  else ds.

Section Worker.
Context {W : Type}.
Variable redisConnect : string -> Z -> W -> W * redisContext.
Variable redisCommand : list string -> W -> W * option redisReply.
Variable system_clock_now : W -> Z.

(** [gst_dsexample_send_to_vlm_service]; [None] is a null [frame_data].
    The [catch] turns an exception of the body into a log line. *)
Definition gst_dsexample_send_to_vlm_service (el : VlmElement)
    (frame_data : option VLMFrameData.t) (w : W) : outcome (VlmElement * W) :=
  match frame_data with
  | None => Returned (el, w)
  | Some frame =>
      match redis_enabled el, vlm_stream_manager el with
      | true, Some mgr =>
          match add_vlm_result redisConnect redisCommand system_clock_now
                  (VLMFrameData.frame_number frame) (VLMFrameData.source_id frame)
                  vlm_response "deepstream_vlm_v1" mgr w with
          | Returned (_, mgr', w') =>
              Returned (mkVlmElement (element el) (redis_enabled el) (Some mgr'), w')
          | Thrown _ => Returned (el, w)
          | NullDeref => NullDeref
          end
      | _, _ => Returned (el, w)
      end
  end.

(** How a run of the worker ends when no other thread touches the queue:
    it leaves the loop, it is suspended in [wait_and_pop()], it faults, or
    the bound on iterations is used up. *)
Inductive worker_run : Type :=
| WorkerExited (processed_count : Z) (el : VlmElement) (w : W)
| WorkerWaiting (processed_count : Z) (el : VlmElement) (w : W)
| WorkerFaulted
| WorkerOutOfFuel.

(** [gst_dsexample_vlm_worker]: the [while] loop, [processed_count] being
    a [uint32_t]. *)
Fixpoint gst_dsexample_vlm_worker (fuel : nat) (processed_count : Z)
    (el : VlmElement) (w : W) : worker_run :=
  match fuel with
  | O => WorkerOutOfFuel
  | S fuel' =>
      if vlm_thread_running (element el) then
        match TSQ.wait_and_pop (vlm_frame_queue (element el)) with
        | TSQ.Blocks => WorkerWaiting processed_count el w
        | TSQ.Returns frame_data_ptr q' =>
            let el := mkVlmElement (set_vlm_frame_queue (element el) q')
                        (redis_enabled el) (vlm_stream_manager el) in
            match frame_data_ptr with
            | None => WorkerExited processed_count el w
            | Some _ =>
                if negb (vlm_thread_running (element el))
                then WorkerExited processed_count el w
                else
                  match gst_dsexample_send_to_vlm_service el frame_data_ptr w with
                  | Returned (el', w') =>
                      gst_dsexample_vlm_worker fuel' (to_uint32 (processed_count + 1)) el' w'
                  | _ => WorkerFaulted
                  end
            end
        end
      else WorkerExited processed_count el w
  end.

(** The record one frame is published as, on a connected manager. *)
Definition publish_frame (stream : string) (w : W) (frame : VLMFrameData.t) : W :=
  fst (redisCommand
         (XADD stream
            (vlm_result_fields system_clock_now
               (VLMFrameData.frame_number frame) (VLMFrameData.source_id frame)
               vlm_response "deepstream_vlm_v1" w))
         w).

End Worker.

(* ===================================================================== *)
(** * The tiler probe of the test application (deepstream_test_app.c) *)
(* ===================================================================== *)

Definition PGIE_CLASS_ID_VEHICLE : Z := 0.
Definition PGIE_CLASS_ID_PERSON : Z := 2.

(** One frame of the batch as the probe reads it: source id, frame number
    and the class ids of its objects. *)
Record ProbeFrame : Type := mkProbeFrame {
  probe_source_id : Z;
  probe_frame_num : Z;
  obj_class_ids : list Z
}.

(** The three [guint] counters of [tiler_src_pad_buffer_probe]. *)
Record probe_counts : Type := mkCounts {
  num_rects : Z;
  vehicle_count : Z;
  person_count : Z
}.

(** The inner loop over the objects of one frame. *)
Fixpoint count_objects (class_ids : list Z) (c : probe_counts) : probe_counts :=
  match class_ids with
  | [] => c
  | class_id :: rest =>
      let c :=
        if class_id =? PGIE_CLASS_ID_VEHICLE
        then mkCounts (to_uint32 (num_rects c + 1)) (to_uint32 (vehicle_count c + 1))
                      (person_count c)
        else c in
      let c :=
        if class_id =? PGIE_CLASS_ID_PERSON
        then mkCounts (to_uint32 (num_rects c + 1)) (vehicle_count c)
                      (to_uint32 (person_count c + 1))
        else c in
      count_objects rest c
  end.

(** The outer loop over the frames: the counters are declared before it
    and are not reset per frame; one line is printed per frame. *)
Fixpoint probe_frames (frames : list ProbeFrame) (c : probe_counts)
  : list (ProbeFrame * probe_counts) :=
  match frames with
  | [] => []
  | frame :: rest =>
      let c := count_objects (obj_class_ids frame) c in
      (frame, c) :: probe_frames rest c
  end.

(** [tiler_src_pad_buffer_probe]: the lines printed for one batch. *)
Definition tiler_src_pad_buffer_probe (frames : list ProbeFrame)
  : list (ProbeFrame * probe_counts) :=
  probe_frames frames (mkCounts 0 0 0).

(* ===================================================================== *)
(** * Shapes of input used to state the properties below *)
(* ===================================================================== *)

(** A buffer that gets past the early exits of
    [gst_dsexample_transform_ip]. *)
Definition reaches_sampling (b : GstBuffer) : bool :=
  cuda_ok b && map_ok b && gpu_id_ok b &&
  match batch_meta b with Some _ => true | None => false end.

(** An array reply laid out as key and value pairs. *)
Definition flatten_replies (kvs : list (redisReply * redisReply)) : list redisReply :=
  flat_map (fun kv => [kv.1; kv.2]) kvs.

(** The map such pairs are read into, later pairs overwriting earlier
    ones. *)
Definition pairs_map (kvs : list (redisReply * redisReply)) : gmap string string :=
  foldl (fun m kv => <[reply_str kv.1 := reply_str kv.2]> m) ∅ kvs.

(** How many of the objects have the given class id. *)
Definition count_class (class_id : Z) (class_ids : list Z) : Z :=
  Z.of_nat (length (List.filter (Z.eqb class_id) class_ids)).

(** The objects of the first [n] frames of a batch. *)
Definition objects_upto (n : nat) (frames : list ProbeFrame) : list Z :=
  concat (obj_class_ids <$> take n frames).

(** A stream id as the server assigns it: milliseconds, a dash, a sequence
    number. *)
Definition entry_id (ms : Z) (seq : string) : string :=
  to_string ms +:+ String "-" seq.

(** A stream entry as XRANGE and XREAD return it: the id, then the flat
    array of fields and values. *)
Definition stream_entry (e : Z * string * list redisReply) : redisReply :=
  REDIS_REPLY_ARRAY [REDIS_REPLY_STRING (entry_id e.1.1 e.1.2); REDIS_REPLY_ARRAY e.2].

(** The message [parse_stream_message] is expected to make of it. *)
Definition entry_message (e : Z * string * list redisReply) : StreamMessage :=
  mkStreamMessage (entry_id e.1.1 e.1.2) (fill_fields e.2 ∅) e.1.1.

(** The fields of a record as the server hands them back: the words
    [xadd] sent after the id (each cut at its first NUL byte on the way
    out), each as a string reply. *)
Definition field_replies (fs : gmap string string) : list redisReply :=
  REDIS_REPLY_STRING <$> (c_str <$> flatten_pairs (in_key_order fs)).

(* ===================================================================== *)
(** * What the client expects of the Redis server *)
(* ===================================================================== *)

(** The server is not part of the program.  The client's promises about
    consumer groups and acknowledgements rest on the documented behaviour of
    two commands, stated here over abstract observations of the server
    state. *)
Record ServerView (W : Type) : Type := mkServerView {
  (** the consumer group exists on the stream *)
  group_exists : W -> string -> string -> bool;
  (** the group's last-delivered id *)
  delivery_cursor : W -> string -> string -> option string;
  (** the entry is in the group's pending list (delivered, not yet acked) *)
  is_pending : W -> string -> string -> string -> bool;
  (** the entries of a stream: id and fields *)
  stored : W -> string -> list (string * gmap string string)
}.
Arguments group_exists {W} _ _ _ _.
Arguments delivery_cursor {W} _ _ _ _.
Arguments is_pending {W} _ _ _ _.
Arguments stored {W} _ _ _.

Section ServerContract.
Context {W : Type}.
Variable redisCommand : list string -> W -> W * option redisReply.
Variable view : ServerView W.

(** [XGROUP CREATE stream group id MKSTREAM] in state [w]: on an existing
    group the server answers with a BUSYGROUP error (the word stands in
    the error text before any NUL byte, where the client looks for it) and
    leaves the group as it is; otherwise it creates the group and answers
    with a status. *)
Definition xgroup_create_contract (w : W) (stream group start_id : string) : Prop :=
  let '(w', reply) := redisCommand (XGROUP_CREATE stream group start_id) w in
  group_exists view w' stream group = true /\
  if group_exists view w stream group
  then (exists msg, reply = Some (REDIS_REPLY_ERROR msg) /\
                    contains "BUSYGROUP" (c_str msg) = true) /\
       delivery_cursor view w' stream group = delivery_cursor view w stream group
  else exists msg, reply = Some (REDIS_REPLY_STATUS msg).

End ServerContract.

(* ===================================================================== *)
(** * Stand-ins for the server, used to run the client on concrete inputs *)
(* ===================================================================== *)

(** A server that cannot be reached. *)
Definition unreachable : string -> Z -> unit -> unit * redisContext :=
  fun _ _ w => (w, CtxErr).

(** A server that accepts every connection. *)
Definition reachable {W : Type} : string -> Z -> W -> W * redisContext :=
  fun _ _ w => (w, CtxOk).

(** A server that answers every command with the same reply. *)
Definition replies_with (reply : option redisReply)
  : list string -> unit -> unit * option redisReply :=
  fun _ w => (w, reply).

(** A small server that keeps consumer groups and pending lists and
    implements the two commands of the contract above. *)
Module MiniServer.
Record t : Type := mk {
  groups : list (string * string * string);      (* stream, group, cursor *)
  pending : list (string * string * string);     (* stream, group, id *)
  entries : list (string * (string * gmap string string))  (* stream, entry *)
}.

Definition same_group (stream group : string) (g : string * string * string) : bool :=
  String.eqb g.1.1 stream && String.eqb g.1.2 group.

Definition same_entry (stream group message_id : string)
    (p : string * string * string) : bool :=
  String.eqb p.1.1 stream && String.eqb p.1.2 group && String.eqb p.2 message_id.

Definition has_group (w : t) (stream group : string) : bool :=
  existsb (same_group stream group) (groups w).

Definition cursor (w : t) (stream group : string) : option string :=
  snd <$> find (same_group stream group) (groups w).

Definition has_pending (w : t) (stream group message_id : string) : bool :=
  existsb (same_entry stream group message_id) (pending w).

Definition entries_of (w : t) (stream : string)
  : list (string * gmap string string) :=
  snd <$> filter (fun e => e.1 = stream) (entries w).

Definition view : ServerView t :=
  mkServerView t has_group cursor has_pending entries_of.

Definition command (args : list string) (w : t) : t * option redisReply :=
  match args with
  | [c1; c2; stream; group; start_id; opt] =>
      if String.eqb c1 "XGROUP" && String.eqb c2 "CREATE" && String.eqb opt "MKSTREAM"
      then
        if has_group w stream group
        then (w, Some (REDIS_REPLY_ERROR
                         "BUSYGROUP Consumer Group name already exists"))
        else (mk ((stream, group, start_id) :: groups w) (pending w) (entries w),
              Some (REDIS_REPLY_STATUS "OK"))
      else (w, Some (REDIS_REPLY_ERROR "ERR unknown command"))
  | [c1; stream; group; message_id] =>
      if String.eqb c1 "XACK"
      then
        if has_pending w stream group message_id
        then (mk (groups w)
                 (filter (fun p => same_entry stream group message_id p = false)
                         (pending w))
                 (entries w),
              Some (REDIS_REPLY_INTEGER 1))
        else (w, Some (REDIS_REPLY_INTEGER 0))
      else (w, Some (REDIS_REPLY_ERROR "ERR unknown command"))
  | _ => (w, Some (REDIS_REPLY_ERROR "ERR unknown command"))
  end.

End MiniServer.

(** A client that is already connected. *)
Definition connected_client : RedisClient :=
  mkRedisClient "localhost" 6379 "" true true.

(* ===================================================================== *)
(** * Properties *)
(* ===================================================================== *)

(** ** Integer conversions *)

Lemma to_uint32_small z : 0 <= z < 2 ^ 32 -> to_uint32 z = z.
Proof. intros Hz. unfold to_uint32. now rewrite Z.mod_small. Qed.

Lemma to_int32_small z : 0 <= z < 2 ^ 31 -> to_int32 z = z.
Proof.
  intros Hz. unfold to_int32.
  rewrite Z.mod_small by lia. lia.
Qed.

Lemma to_uint64_small z : 0 <= z < 2 ^ 64 -> to_uint64 z = z.
Proof. intros Hz. unfold to_uint64. now rewrite Z.mod_small. Qed.

(** An [int] converted to [unsigned] is the original value modulo [2^32]. *)
Lemma to_uint32_to_int32 z : to_uint32 (to_int32 z) = to_uint32 z.
Proof.
  unfold to_uint32, to_int32.
  rewrite Zminus_mod, Zmod_mod, <- Zminus_mod.
  f_equal. lia.
Qed.


(** ** The queue on its own *)

Section QueueFacts.
Context {T : Type}.
Implicit Types (q : TSQ.t T) (x v : T).

Lemma wait_and_pop_terminated q :
  TSQ.is_terminated_ q = true -> TSQ.wait_and_pop q = TSQ.Returns None q.
Proof.
  intros Ht. unfold TSQ.wait_and_pop, TSQ.wait_pred.
  rewrite Ht, orb_true_r. reflexivity.
Qed.

Lemma wait_and_pop_live_front q x rest :
  TSQ.is_terminated_ q = false -> TSQ.data_queue_ q = x :: rest ->
  TSQ.wait_and_pop q = TSQ.Returns (Some x) (TSQ.mk rest false).
Proof.
  intros Ht Hd. unfold TSQ.wait_and_pop, TSQ.wait_pred, TSQ.empty.
  rewrite Ht, Hd. reflexivity.
Qed.

Lemma wait_and_pop_live_empty q :
  TSQ.is_terminated_ q = false -> TSQ.data_queue_ q = [] ->
  TSQ.wait_and_pop q = TSQ.Blocks.
Proof.
  intros Ht Hd. unfold TSQ.wait_and_pop, TSQ.wait_pred, TSQ.empty.
  rewrite Ht, Hd. reflexivity.
Qed.

(** The flag is one-way: no call clears it. *)
Lemma after_call_keeps_terminated q (c : TSQ.call T) :
  TSQ.is_terminated_ q = true -> TSQ.is_terminated_ (TSQ.after_call q c) = true.
Proof.
  intros Ht. destruct c as [v| | |]; simpl; try assumption.
  - unfold TSQ.try_pop_ptr. destruct (TSQ.data_queue_ q); simpl; assumption.
  - rewrite wait_and_pop_terminated by assumption. assumption.
  - reflexivity.
Qed.

Lemma after_calls_keeps_terminated (cs : list (TSQ.call T)) q :
  TSQ.is_terminated_ q = true -> TSQ.is_terminated_ (TSQ.after_calls q cs) = true.
Proof.
  revert q. induction cs as [|c cs IH]; intros q Ht; simpl.
  - assumption.
  - apply IH. now apply after_call_keeps_terminated.
Qed.

(** A consumer that finds [k] items ahead of it, on a live queue, gets
    them in queue order. *)
Lemma consume_prefix (xs rest : list T) :
  TSQ.consume (length xs) (TSQ.mk (xs ++ rest) false)
  = Some (xs, TSQ.mk rest false).
Proof.
  induction xs as [|x xs IH]; simpl.
  - reflexivity.
  - rewrite IH. reflexivity.
Qed.

Lemma consume_all (xs : list T) :
  TSQ.consume (length xs) (TSQ.mk xs false) = Some (xs, TSQ.mk [] false).
Proof.
  pose proof (consume_prefix xs []) as H. now rewrite app_nil_r in H.
Qed.

Lemma drain_all (xs : list T) (b : bool) (extra : nat) :
  TSQ.drain (length xs + extra) (TSQ.mk xs b) = (xs, TSQ.mk [] b).
Proof.
  induction xs as [|x xs IH]; simpl.
  - destruct extra; reflexivity.
  - rewrite IH. reflexivity.
Qed.
End QueueFacts.

(** Claim C1, as the code has it.  [wait_and_pop()] returns [nullptr]
    exactly when the queue has been terminated, whether or not items are
    still queued; on a queue that is not terminated it hands back the front
    item and removes it whenever one is present, and blocks exactly when the
    queue is empty; once [terminate()] has been called no later call
    blocks, whatever calls come in between. *)
Theorem wait_and_pop_behaviour {T : Type} (q : TSQ.t T) :
  ((exists q', TSQ.wait_and_pop q = TSQ.Returns None q')
     <-> TSQ.is_terminated_ q = true) /\
  (TSQ.is_terminated_ q = false ->
     forall front rest, TSQ.data_queue_ q = front :: rest ->
       TSQ.wait_and_pop q = TSQ.Returns (Some front) (TSQ.mk rest false)) /\
  (TSQ.wait_and_pop q = TSQ.Blocks
     <-> TSQ.is_terminated_ q = false /\ TSQ.data_queue_ q = []) /\
  (forall cs : list (TSQ.call T),
     let q' := TSQ.after_calls (TSQ.terminate q) cs in
     TSQ.wait_and_pop q' = TSQ.Returns None q').
Proof.
  split; [|split; [|split]].
  - split.
    + intros [q' H].
      destruct (TSQ.is_terminated_ q) eqn:Ht; [reflexivity|].
      destruct (TSQ.data_queue_ q) as [|x rest] eqn:Hd.
      * rewrite wait_and_pop_live_empty in H by assumption. discriminate.
      * rewrite (wait_and_pop_live_front _ x rest) in H by assumption.
        discriminate.
    + intros Ht. exists q. now apply wait_and_pop_terminated.
  - intros Ht front rest Hd. now apply wait_and_pop_live_front.
  - split.
    + intros H. destruct (TSQ.is_terminated_ q) eqn:Ht.
      * rewrite wait_and_pop_terminated in H by assumption. discriminate.
      * split; [reflexivity|].
        destruct (TSQ.data_queue_ q) as [|x rest] eqn:Hd; [reflexivity|].
        rewrite (wait_and_pop_live_front _ x rest) in H by assumption.
        discriminate.
    + intros [Ht Hd]. now apply wait_and_pop_live_empty.
  - intros cs q'. apply wait_and_pop_terminated.
    now apply after_calls_keeps_terminated.
Qed.

(** Claim C1 as stated fails: on a terminated queue that still holds an
    item, [wait_and_pop()] returns [nullptr] and leaves the item where it
    is, although the queue is not empty. *)
Lemma wait_and_pop_abandons_queued_item :
  let q := TSQ.mk [7] true in
  TSQ.wait_and_pop q = TSQ.Returns None q /\
  TSQ.data_queue_ q = [7] /\
  ~ (TSQ.is_terminated_ q = true /\ TSQ.data_queue_ q = []).
Proof.
  simpl. repeat split.
  intros [_ H]. discriminate H.
Qed.

(** Claim C10.  [terminate()] sets the flag and nothing else: the queued
    items and [size()] are unchanged, each [try_pop] (both overloads) after
    it hands back the item it would have handed back before, and popping
    until empty yields all the items that were queued, oldest first. *)
Theorem terminate_keeps_items {T : Type} (q : TSQ.t T) :
  TSQ.data_queue_ (TSQ.terminate q) = TSQ.data_queue_ q /\
  TSQ.is_terminated_ (TSQ.terminate q) = true /\
  TSQ.size (TSQ.terminate q) = TSQ.size q /\
  TSQ.try_pop_ptr (TSQ.terminate q)
    = (fst (TSQ.try_pop_ptr q), TSQ.terminate (snd (TSQ.try_pop_ptr q))) /\
  (forall value,
     TSQ.try_pop value (TSQ.terminate q)
     = (fst (TSQ.try_pop value q), TSQ.terminate (snd (TSQ.try_pop value q)))) /\
  (forall fuel,
     fst (TSQ.drain fuel (TSQ.terminate q)) = fst (TSQ.drain fuel q)) /\
  fst (TSQ.drain (length (TSQ.data_queue_ q)) (TSQ.terminate q))
    = TSQ.data_queue_ q.
Proof.
  destruct q as [items b].
  repeat split.
  - destruct items; reflexivity.
  - intros value. destruct items; reflexivity.
  - intros fuel. unfold TSQ.terminate; simpl.
    revert items. induction fuel as [|fuel IH]; intros items; simpl.
    + reflexivity.
    + destruct items as [|x rest]; simpl; [reflexivity|].
      specialize (IH rest).
      destruct (TSQ.drain fuel (TSQ.mk rest true)) as [xs1 q1].
      destruct (TSQ.drain fuel (TSQ.mk rest b)) as [xs2 q2].
      simpl in *. now f_equal.
  - unfold TSQ.terminate; simpl.
    pose proof (drain_all items true 0) as H.
    rewrite Nat.add_0_r in H. now rewrite H.
Qed.

(** ** The producer's evict-then-push sequence, run without interference *)

(** Every value the "vlm-queue-size" property accepts is a non-zero
    [guint]. *)
Lemma valid_queue_size_guint c : valid_queue_size c -> 1 <= c < 2 ^ 32.
Proof. unfold valid_queue_size. lia. Qed.

Section AdmitFacts.
Context {T : Type}.
Variable max_size : Z.
Variable dropped : T.
Hypothesis max_size_guint : 1 <= max_size < 2 ^ 32.

Implicit Types (q : TSQ.t T) (item : T) (items : list T).

Let capacity : nat := Z.to_nat max_size.

Abbreviation enqueue := (enqueue_dropping_oldest max_size dropped).
Abbreviation within_capacity q := (length (TSQ.data_queue_ q) <= capacity)%nat.

Lemma size_as_unsigned q :
  within_capacity q ->
  to_uint32 (TSQ.size q) = Z.of_nat (length (TSQ.data_queue_ q)).
Proof.
  intros Hq. unfold TSQ.size. rewrite to_uint32_to_int32.
  apply to_uint32_small. subst capacity. lia.
Qed.

Lemma enqueue_keeps_flag item q :
  TSQ.is_terminated_ (enqueue item q) = TSQ.is_terminated_ q.
Proof.
  unfold enqueue_dropping_oldest, evict_if_full, TSQ.push, TSQ.try_pop.
  destruct (max_size <=? _); [|reflexivity].
  destruct (TSQ.data_queue_ q); reflexivity.
Qed.

(** One enqueue appends the item and, on a full queue, drops the front. *)
Lemma enqueue_data item q :
  within_capacity q ->
  TSQ.data_queue_ (enqueue item q)
  = drop (length (TSQ.data_queue_ q) + 1 - capacity) (TSQ.data_queue_ q ++ [item]).
Proof.
  intros Hq. unfold enqueue_dropping_oldest, evict_if_full.
  rewrite size_as_unsigned by assumption.
  destruct (Z.leb_spec max_size (Z.of_nat (length (TSQ.data_queue_ q)))) as [Hfull|Hroom].
  - assert (length (TSQ.data_queue_ q) = capacity) as Hlen by (subst capacity; lia).
    replace (length (TSQ.data_queue_ q) + 1 - capacity)%nat with 1%nat by lia.
    unfold TSQ.try_pop, TSQ.push.
    destruct (TSQ.data_queue_ q) as [|front rest] eqn:Hd.
    + exfalso. simpl in Hlen. subst capacity. lia.
    + reflexivity.
  - replace (length (TSQ.data_queue_ q) + 1 - capacity)%nat with 0%nat
      by (subst capacity; lia).
    reflexivity.
Qed.

Lemma enqueue_within_capacity item q :
  within_capacity q -> within_capacity (enqueue item q).
Proof.
  intros Hq. rewrite enqueue_data by assumption.
  rewrite length_drop, length_app. simpl. subst capacity. lia.
Qed.

Lemma enqueue_all_keeps_flag items q :
  TSQ.is_terminated_ (enqueue_all max_size dropped items q) = TSQ.is_terminated_ q.
Proof.
  revert q. induction items as [|item items IH]; intros q.
  - reflexivity.
  - change (enqueue_all max_size dropped (item :: items) q)
      with (enqueue_all max_size dropped items (enqueue item q)).
    rewrite IH. apply enqueue_keeps_flag.
Qed.

Lemma enqueue_all_within_capacity items q :
  within_capacity q -> within_capacity (enqueue_all max_size dropped items q).
Proof.
  revert q. induction items as [|item items IH]; intros q Hq.
  - assumption.
  - change (enqueue_all max_size dropped (item :: items) q)
      with (enqueue_all max_size dropped items (enqueue item q)).
    apply IH. now apply enqueue_within_capacity.
Qed.

(** After any run of enqueues the queue holds the newest [capacity] of
    everything that was in it or was pushed, oldest first. *)
Lemma enqueue_all_data items q :
  within_capacity q ->
  TSQ.data_queue_ (enqueue_all max_size dropped items q)
  = drop (length (TSQ.data_queue_ q) + length items - capacity)
         (TSQ.data_queue_ q ++ items).
Proof.
  revert q. induction items as [|item items IH]; intros q Hq.
  - simpl. rewrite app_nil_r, Nat.add_0_r.
    replace (length (TSQ.data_queue_ q) - capacity)%nat with 0%nat by lia.
    reflexivity.
  - change (enqueue_all max_size dropped (item :: items) q)
      with (enqueue_all max_size dropped items (enqueue item q)).
    rewrite IH by now apply enqueue_within_capacity.
    rewrite enqueue_data by assumption.
    set (old := TSQ.data_queue_ q) in *.
    rewrite length_drop, length_app. simpl length.
    rewrite <- drop_app_le by (rewrite length_app; simpl; lia).
    rewrite drop_drop, <- app_assoc. simpl.
    f_equal. lia.
Qed.
End AdmitFacts.

(** Claim C4.  Starting from a queue within its capacity (the empty queue
    of a fresh element in particular), the queue holds at most
    [max_size] items after each push of the evict-then-push sequence, that
    is after every prefix of the pushed items. *)
Theorem capacity_invariant {T : Type} (max_size : Z) (dropped : T)
    (items : list T) (q : TSQ.t T) (k : nat) :
  1 <= max_size < 2 ^ 32 ->
  Z.of_nat (length (TSQ.data_queue_ q)) <= max_size ->
  Z.of_nat (length (TSQ.data_queue_
                      (enqueue_all max_size dropped (take k items) q)))
    <= max_size.
Proof.
  intros Hmax Hq.
  pose proof (enqueue_all_within_capacity max_size dropped Hmax (take k items) q) as H.
  lia.
Qed.

(** Three pushes at capacity 2. *)
Lemma capacity_invariant_witness :
  Z.of_nat (length (TSQ.data_queue_
                      (enqueue_all 2 0 (take 3 [10; 20; 30; 40]) TSQ.init)))
    <= 2.
Proof.
  apply (capacity_invariant 2 0 [10; 20; 30; 40] TSQ.init 3).
  - lia.
  - simpl. lia.
Defined.

(** Claim C3.  Pushing [es] through the evict-then-push sequence into an
    empty queue of capacity [max_size] leaves exactly the last
    [min (length es) max_size] of them, in push order, and the consumer's
    [wait_and_pop] calls hand them back in that order, after which the next
    call blocks until [terminate()] makes it return [nullptr].  So
    [max_size + 1] pushes leave all but the first; without overflow the
    consumer gets the items in push order; and 150 pushes at capacity 100
    leave the items 51..150, which 100 pops return in order. *)
Theorem eviction_keeps_newest {T : Type} (max_size : Z) (dropped : T)
    (es : list T) :
  1 <= max_size < 2 ^ 32 ->
  let capacity := Z.to_nat max_size in
  let q := enqueue_all max_size dropped es TSQ.init in
  let kept := drop (length es - capacity) es in
  TSQ.data_queue_ q = kept /\
  length kept = Nat.min (length es) capacity /\
  (exists q', TSQ.consume (length kept) q = Some (kept, q') /\
              TSQ.wait_and_pop q' = TSQ.Blocks /\
              TSQ.wait_and_pop (TSQ.terminate q') = TSQ.Returns None (TSQ.terminate q')) /\
  (forall e1 rest, es = e1 :: rest -> length rest = capacity ->
     TSQ.data_queue_ q = rest) /\
  ((length es <= capacity)%nat ->
     exists q', TSQ.consume (length es) q = Some (es, q')) /\
  (max_size = 100 -> length es = 150%nat ->
     TSQ.data_queue_ q = drop 50 es /\
     exists q', TSQ.consume 100 q = Some (drop 50 es, q')).
Proof.
  intros Hmax capacity q kept.
  assert (TSQ.data_queue_ q = kept) as Hdata.
  { subst q kept.
    rewrite (enqueue_all_data max_size dropped Hmax) by (simpl; lia).
    reflexivity. }
  assert (q = TSQ.mk kept false) as Hq.
  { pose proof (enqueue_all_keeps_flag max_size dropped es TSQ.init) as Hflag.
    fold q in Hflag. destruct q as [d b]. simpl in *. now subst. }
  assert (length kept = Nat.min (length es) capacity) as Hlen.
  { subst kept. rewrite length_drop. lia. }
  split; [exact Hdata|]. split; [exact Hlen|].
  split; [|split; [|split]].
  - exists (TSQ.mk [] false). rewrite Hq. split; [apply consume_all|].
    split; reflexivity.
  - intros e1 rest -> Hrest. rewrite Hdata. subst kept. simpl length.
    replace (S (length rest) - capacity)%nat with 1%nat by lia.
    reflexivity.
  - intros Hfit. exists (TSQ.mk [] false).
    assert (kept = es) as Hall.
    { subst kept. replace (length es - capacity)%nat with 0%nat by lia.
      reflexivity. }
    rewrite Hq, Hall. apply consume_all.
  - intros Hc Hn.
    assert (kept = drop 50 es) as Hk.
    { subst kept capacity. rewrite Hc, Hn. reflexivity. }
    split; [now rewrite Hdata|].
    exists (TSQ.mk [] false). rewrite Hq, <- Hk.
    replace 100%nat with (length kept).
    + apply consume_all.
    + rewrite Hlen, Hn. subst capacity. rewrite Hc. reflexivity.
Qed.

(** Four pushes at capacity 3 leave the last three. *)
Lemma eviction_keeps_newest_witness :
  TSQ.data_queue_ (enqueue_all 3 0 [1; 2; 3; 4] TSQ.init) = [2; 3; 4].
Proof.
  pose proof (eviction_keeps_newest 3 0 [1; 2; 3; 4]) as H.
  simpl in H. apply H. lia.
Defined.

(** The end-to-end scenario on numbers: 150 pushes at capacity 100. *)
Example push_150_capacity_100 :
  let q := enqueue_all 100 0 (seqZ 1 150) TSQ.init in
  TSQ.size q = 100 /\
  TSQ.data_queue_ q = seqZ 51 100 /\
  TSQ.consume 100 q = Some (seqZ 51 100, TSQ.init) /\
  TSQ.wait_and_pop TSQ.init = @TSQ.Blocks Z.
Proof. vm_compute. repeat split; reflexivity. Qed.

(** ** The same sequence with other threads running in between *)

Section InterleavingFacts.
Context {T : Type}.
Variable max_size : Z.
Variable dropped : T.
Variable item : T.
Hypothesis max_size_int : 1 <= max_size < 2 ^ 31.

Implicit Types (q : TSQ.t T) (pc : producer_pc) (sched : list action).

Lemma size_exact q :
  Z.of_nat (length (TSQ.data_queue_ q)) <= max_size ->
  TSQ.size q = Z.of_nat (length (TSQ.data_queue_ q)).
Proof. intros Hq. unfold TSQ.size. apply to_int32_small. lia. Qed.

Lemma producer_step_invariant pc q :
  between_calls max_size pc q ->
  between_calls max_size (fst (producer_step max_size dropped item pc q))
                (snd (producer_step max_size dropped item pc q)).
Proof.
  intros [Hcap Hpush]. destruct pc; simpl.
  - rewrite size_exact by assumption.
    rewrite to_uint32_small by lia.
    destruct (Z.leb_spec max_size (Z.of_nat (length (TSQ.data_queue_ q))));
      simpl; split; try assumption; try discriminate.
    intros _. lia.
  - destruct q as [[|x rest] b]; unfold TSQ.try_pop, between_calls;
      cbn [fst snd TSQ.data_queue_ length] in *; split; intros; lia.
  - specialize (Hpush eq_refl). unfold TSQ.push, between_calls.
    cbn [fst snd TSQ.data_queue_]. rewrite length_app. simpl length.
    split; [lia|discriminate].
  - split; [assumption|discriminate].
Qed.

Lemma wait_and_pop_shrinks q res q' :
  TSQ.wait_and_pop q = TSQ.Returns res q' ->
  (length (TSQ.data_queue_ q') <= length (TSQ.data_queue_ q))%nat.
Proof.
  unfold TSQ.wait_and_pop. destruct (TSQ.wait_pred q); [|discriminate].
  destruct (TSQ.is_terminated_ q).
  - intros [= <- <-]. lia.
  - destruct (TSQ.data_queue_ q) as [|x rest]; [discriminate|].
    intros [= <- <-]. simpl. lia.
Qed.

Lemma run_schedule_invariant sched pc q :
  between_calls max_size pc q ->
  let '(pc', q', obs) := run_schedule max_size dropped item sched pc q in
  between_calls max_size pc' q' /\
  Forall (fun n => 0 <= n <= max_size) (seen_sizes obs).
Proof.
  revert pc q. induction sched as [|a sched IH]; intros pc q Hinv; simpl.
  - split; [assumption|constructor].
  - destruct a; simpl.
    + pose proof (producer_step_invariant pc q Hinv) as Hstep.
      destruct (producer_step max_size dropped item pc q) as [pc1 q1].
      specialize (IH pc1 q1 Hstep).
      destruct (run_schedule max_size dropped item sched pc1 q1) as [[pc2 q2] obs2].
      exact IH.
    + specialize (IH pc q Hinv).
      destruct (run_schedule max_size dropped item sched pc q) as [[pc2 q2] obs2].
      destruct IH as [Hinv2 Hobs]. split; [assumption|].
      simpl. constructor; [|assumption].
      destruct Hinv as [Hcap _]. rewrite size_exact by assumption. lia.
    + destruct (TSQ.wait_and_pop q) as [|res q1] eqn:Hpop.
      * specialize (IH pc q Hinv).
        destruct (run_schedule max_size dropped item sched pc q) as [[pc2 q2] obs2].
        exact IH.
      * assert (between_calls max_size pc q1) as Hinv1.
        { apply wait_and_pop_shrinks in Hpop. destruct Hinv as [Hcap Hpush].
          split; [lia|]. intros Hpc. specialize (Hpush Hpc). lia. }
        specialize (IH pc q1 Hinv1).
        destruct (run_schedule max_size dropped item sched pc q1) as [[pc2 q2] obs2].
        exact IH.
Qed.

(** With no other thread in between, the three calls are the sequence. *)
Lemma run_producer_alone q :
  exists sched, Forall (fun a => a = ProducerCall) sched /\
    run_schedule max_size dropped item sched AtSizeCheck q
    = (Finished, enqueue_dropping_oldest max_size dropped item q, []).
Proof.
  unfold enqueue_dropping_oldest, evict_if_full.
  destruct (max_size <=? to_uint32 (TSQ.size q)) eqn:Hfull.
  - exists [ProducerCall; ProducerCall; ProducerCall].
    split; [repeat constructor|]. simpl. rewrite Hfull. reflexivity.
  - exists [ProducerCall; ProducerCall].
    split; [repeat constructor|]. simpl. rewrite Hfull. reflexivity.
Qed.
End InterleavingFacts.

(** Claim C9, as the code has it.  The producer's sequence is three
    separately locked calls ([size()], [try_pop], [push]), each atomic on
    its own; other threads' [size()] queries and the worker's pops may run
    between any two of them.  Run with nothing in between, the calls amount
    to evict-the-oldest-when-full, then push.  Under every interleaving
    that starts within capacity, the queue is within capacity after every
    call and every size reported to another thread lies between zero and
    the capacity. *)
Theorem interleaved_enqueue_stays_bounded {T : Type} (max_size : Z)
    (dropped item : T) (sched : list action) (q : TSQ.t T) :
  1 <= max_size < 2 ^ 31 ->
  Z.of_nat (length (TSQ.data_queue_ q)) <= max_size ->
  (let '(pc', q', obs) := run_schedule max_size dropped item sched AtSizeCheck q in
   Z.of_nat (length (TSQ.data_queue_ q')) <= max_size /\
   Forall (fun n => 0 <= n <= max_size) (seen_sizes obs)) /\
  (exists alone, Forall (fun a => a = ProducerCall) alone /\
     run_schedule max_size dropped item alone AtSizeCheck q
     = (Finished, enqueue_dropping_oldest max_size dropped item q, [])).
Proof.
  intros Hmax Hq. split.
  - assert (between_calls max_size AtSizeCheck q) as Hinv
      by (split; [assumption|discriminate]).
    pose proof (run_schedule_invariant max_size dropped item Hmax sched
                  AtSizeCheck q Hinv) as H.
    destruct (run_schedule max_size dropped item sched AtSizeCheck q)
      as [[pc' q'] obs].
    destruct H as [[Hcap _] Hobs]. split; assumption.
  - apply run_producer_alone.
Qed.

(** A run at capacity 2 with size queries and a worker pop in between. *)
Lemma interleaved_enqueue_stays_bounded_witness :
  1 <= 2 < 2 ^ 31 /\
  Z.of_nat (length (TSQ.data_queue_ (TSQ.mk [1; 2] false))) <= 2 /\
  Forall (fun n => 0 <= n <= 2)
    (seen_sizes
       (snd (run_schedule 2 0 3 [ProducerCall; OtherSize; ProducerCall; WorkerPop;
                                 OtherSize; ProducerCall; OtherSize]
                          AtSizeCheck (TSQ.mk [1; 2] false)))).
Proof.
  assert (1 <= 2 < 2 ^ 31) as Hmax by lia.
  assert (Z.of_nat (length (TSQ.data_queue_ (TSQ.mk [1; 2] false))) <= 2) as Hq
    by (simpl; lia).
  split; [exact Hmax|]. split; [exact Hq|].
  exact (proj2 (proj1 (interleaved_enqueue_stays_bounded 2 0 3
                  [ProducerCall; OtherSize; ProducerCall; WorkerPop;
                   OtherSize; ProducerCall; OtherSize]
                  (TSQ.mk [1; 2] false) Hmax Hq))).
Defined.

(** Claim C9 as stated fails: with the queue full at capacity 2, a
    [size()] query scheduled after the producer's [try_pop] and before its
    [push] reports 1, which is the size neither before the sequence (2) nor
    after it (2). *)
Lemma size_query_sees_half_done_enqueue :
  let q := TSQ.mk [1; 2] false in
  let '(pc', q', obs) :=
    run_schedule 2 0 3 [ProducerCall; ProducerCall; OtherSize; ProducerCall]
                 AtSizeCheck q in
  pc' = Finished /\
  q' = enqueue_dropping_oldest 2 0 3 q /\
  TSQ.size q = 2 /\ TSQ.size q' = 2 /\
  seen_sizes obs = [1] /\
  ~ Forall (fun n => n = TSQ.size q \/ n = TSQ.size q') (seen_sizes obs).
Proof.
  vm_compute. repeat split.
  intros H. inversion H as [|n l [Hn|Hn] _]; discriminate Hn.
Qed.

(** ** The rate limiter *)

(** What one enqueue leaves untouched. *)
Lemma enqueue_frame_keeps_config ds fm :
  vlm_enabled (enqueue_frame ds fm) = vlm_enabled ds /\
  vlm_frame_counter (enqueue_frame ds fm) = vlm_frame_counter ds /\
  vlm_frame_interval (enqueue_frame ds fm) = vlm_frame_interval ds /\
  vlm_queue_max_size (enqueue_frame ds fm) = vlm_queue_max_size ds /\
  admits (enqueue_frame ds fm) = admits ds.
Proof. repeat split. Qed.

Lemma enqueue_frames_effect frames ds :
  let ds' := enqueue_frames ds frames in
  vlm_enabled ds' = vlm_enabled ds /\
  vlm_frame_counter ds' = vlm_frame_counter ds /\
  vlm_frame_interval ds' = vlm_frame_interval ds /\
  vlm_queue_max_size ds' = vlm_queue_max_size ds /\
  vlm_frame_queue ds'
    = enqueue_all (vlm_queue_max_size ds) VLMFrameData.default
        (make_vlm_frame <$> frames) (vlm_frame_queue ds) /\
  exists lines, printed ds' = printed ds ++ lines /\ length lines = length frames.
Proof.
  revert ds. induction frames as [|fm frames IH]; intros ds.
  - simpl. repeat split. exists []. now rewrite app_nil_r.
  - change (enqueue_frames ds (fm :: frames))
      with (enqueue_frames (enqueue_frame ds fm) frames).
    destruct (IH (enqueue_frame ds fm)) as (He & Hc & Hi & Hm & Hq & lines & Hp & Hl).
    cbv zeta. rewrite He, Hc, Hi, Hm, Hq, Hp.
    repeat split.
    eexists (_ :: lines). split.
    + simpl. rewrite <- app_assoc. reflexivity.
    + simpl. now rewrite Hl.
Qed.

(** The admission test does not change during the loop, so the loop either
    enqueues every frame of the batch or none. *)
Lemma sample_frames_all_or_none frames ds :
  sample_frames ds frames = if admits ds then enqueue_frames ds frames else ds.
Proof.
  revert ds. induction frames as [|fm frames IH]; intros ds; simpl.
  - now destruct (admits ds).
  - rewrite IH. destruct (admits ds) eqn:Ha.
    + replace (admits (enqueue_frame ds fm)) with true. reflexivity.
    + now rewrite Ha.
Qed.

(** One healthy buffer through an enabled element. *)
Lemma transform_ip_healthy ds inbuf frames :
  vlm_enabled ds = true ->
  cuda_ok inbuf = true -> map_ok inbuf = true -> gpu_id_ok inbuf = true ->
  batch_meta inbuf = Some frames ->
  gst_dsexample_transform_ip ds inbuf
  = (GST_FLOW_OK,
     sample_frames (bump_vlm_frame_counter (bump_frame_num ds)) frames).
Proof.
  intros He Hc Hm Hg Hb. unfold gst_dsexample_transform_ip.
  rewrite Hc, Hm, Hg, Hb. simpl. now rewrite He.
Qed.

Lemma transform_ip_effect ds inbuf frames :
  vlm_enabled ds = true -> healthy inbuf -> batch_meta inbuf = Some frames ->
  let ds' := snd (gst_dsexample_transform_ip ds inbuf) in
  let admitted := vlm_frame_counter ds' mod vlm_frame_interval ds =? 0 in
  fst (gst_dsexample_transform_ip ds inbuf) = GST_FLOW_OK /\
  vlm_enabled ds' = true /\
  vlm_frame_interval ds' = vlm_frame_interval ds /\
  vlm_queue_max_size ds' = vlm_queue_max_size ds /\
  vlm_frame_counter ds' = to_uint64 (vlm_frame_counter ds + 1) /\
  vlm_frame_queue ds'
    = (if admitted
       then enqueue_all (vlm_queue_max_size ds) VLMFrameData.default
              (make_vlm_frame <$> frames) (vlm_frame_queue ds)
       else vlm_frame_queue ds) /\
  exists lines, printed ds' = printed ds ++ lines /\
                length lines = if admitted then length frames else 0%nat.
Proof.
  intros He (Hc & Hm & Hg & _) Hb.
  rewrite (transform_ip_healthy ds inbuf frames) by assumption.
  cbv zeta. cbn [fst snd]. rewrite sample_frames_all_or_none.
  set (ds1 := bump_vlm_frame_counter (bump_frame_num ds)).
  unfold admits.
  change (vlm_frame_counter ds1) with (to_uint64 (vlm_frame_counter ds + 1)).
  change (vlm_frame_interval ds1) with (vlm_frame_interval ds).
  destruct (enqueue_frames_effect frames ds1) as (He1 & Hc1 & Hi1 & Hm1 & Hq1 & lines & Hp1 & Hl1).
  destruct (to_uint64 (vlm_frame_counter ds + 1) mod vlm_frame_interval ds =? 0) eqn:Ha.
  - rewrite He1, Hc1, Hi1, Hm1, Hq1, Hp1.
    change (vlm_frame_counter ds1) with (to_uint64 (vlm_frame_counter ds + 1)).
    rewrite Ha.
    repeat split; try assumption. exists lines. split; [reflexivity|assumption].
  - change (vlm_frame_counter ds1) with (to_uint64 (vlm_frame_counter ds + 1)).
    rewrite Ha.
    repeat split; try assumption. exists []. split; [|reflexivity].
    now rewrite app_nil_r.
Qed.

Lemma process_batches_snoc ds bufs inbuf :
  process_batches ds (bufs ++ [inbuf])
  = snd (gst_dsexample_transform_ip (process_batches ds bufs) inbuf).
Proof. unfold process_batches. now rewrite fold_left_app. Qed.

Lemma to_uint64_succ c n :
  to_uint64 (to_uint64 (c + n) + 1) = to_uint64 (c + n + 1).
Proof. unfold to_uint64. now rewrite Zplus_mod_idemp_l. Qed.

(** The configuration is untouched and the counter has advanced by the
    number of buffers, modulo [2^64]. *)
Lemma process_batches_state bufs ds :
  vlm_enabled ds = true ->
  0 <= vlm_frame_counter ds < 2 ^ 64 ->
  Forall healthy bufs ->
  let ds' := process_batches ds bufs in
  vlm_enabled ds' = true /\
  vlm_frame_interval ds' = vlm_frame_interval ds /\
  vlm_queue_max_size ds' = vlm_queue_max_size ds /\
  vlm_frame_counter ds' = to_uint64 (vlm_frame_counter ds + Z.of_nat (length bufs)).
Proof.
  intros He Hc. induction bufs as [|inbuf bufs IH] using rev_ind; intros Hh.
  - simpl. repeat split; try assumption.
    rewrite Z.add_0_r. symmetry. now apply to_uint64_small.
  - apply Forall_app in Hh as [Hh Hb]. apply Forall_inv in Hb.
    destruct (IH Hh) as (He' & Hi' & Hm' & Hc').
    cbv zeta. rewrite process_batches_snoc.
    destruct Hb as (Hcu & Hma & Hgp & [frames Hfr]).
    assert (healthy inbuf) as Hb by (repeat split; eauto).
    destruct (transform_ip_effect (process_batches ds bufs) inbuf frames He' Hb Hfr)
      as (_ & He2 & Hi2 & Hm2 & Hc2 & _).
    rewrite He2, Hi2, Hm2, Hc2, Hi', Hm', Hc'.
    repeat split.
    rewrite to_uint64_succ, length_app. simpl. f_equal. lia.
Qed.

(** The queue stays within its capacity over any run of healthy
    buffers. *)
Lemma process_batches_within_capacity bufs ds :
  vlm_enabled ds = true ->
  1 <= vlm_queue_max_size ds < 2 ^ 32 ->
  (length (TSQ.data_queue_ (vlm_frame_queue ds))
   <= Z.to_nat (vlm_queue_max_size ds))%nat ->
  0 <= vlm_frame_counter ds < 2 ^ 64 ->
  Forall healthy bufs ->
  (length (TSQ.data_queue_ (vlm_frame_queue (process_batches ds bufs)))
   <= Z.to_nat (vlm_queue_max_size ds))%nat.
Proof.
  intros He Hmax Hq Hc. induction bufs as [|inbuf bufs IH] using rev_ind; intros Hh.
  - exact Hq.
  - apply Forall_app in Hh as [Hh Hb]. apply Forall_inv in Hb.
    destruct (process_batches_state bufs ds He Hc Hh) as (He' & _ & Hm' & _).
    rewrite process_batches_snoc.
    destruct Hb as (Hcu & Hma & Hgp & [frames Hfr]).
    assert (healthy inbuf) as Hb by (repeat split; eauto).
    destruct (transform_ip_effect (process_batches ds bufs) inbuf frames He' Hb Hfr)
      as (_ & _ & _ & _ & _ & Hq2 & _).
    rewrite Hq2, Hm'.
    destruct (_ =? 0); [|now apply IH].
    apply enqueue_all_within_capacity; [exact Hmax|now apply IH].
Qed.

(** The lines printed while the frames of an admitted batch are enqueued:
    one per frame, in order, each with the size of the queue right after
    its push. *)
Lemma enqueue_frames_printed frames : forall ds,
  1 <= vlm_queue_max_size ds < 2 ^ 32 ->
  (length (TSQ.data_queue_ (vlm_frame_queue ds))
   <= Z.to_nat (vlm_queue_max_size ds))%nat ->
  printed (enqueue_frames ds frames)
  = printed ds ++
    imap (fun i frame_meta =>
            EnqueueLine
              (to_int32 (NvDsFrameMeta.source_id frame_meta))
              (to_int32 (to_uint32 (NvDsFrameMeta.frame_num frame_meta)))
              (Z.of_nat (Nat.min (length (TSQ.data_queue_ (vlm_frame_queue ds)) + S i)
                                 (Z.to_nat (vlm_queue_max_size ds)))))
         frames.
Proof.
  induction frames as [|fm frames IH]; intros ds Hmax Hq.
  - simpl. now rewrite app_nil_r.
  - change (enqueue_frames ds (fm :: frames))
      with (enqueue_frames (enqueue_frame ds fm) frames).
    set (q1 := enqueue_dropping_oldest (vlm_queue_max_size ds) VLMFrameData.default
                 (make_vlm_frame fm) (vlm_frame_queue ds)).
    assert (length (TSQ.data_queue_ q1)
            = Nat.min (length (TSQ.data_queue_ (vlm_frame_queue ds)) + 1)
                      (Z.to_nat (vlm_queue_max_size ds))) as Hlen.
    { subst q1. rewrite enqueue_data by assumption.
      rewrite length_drop, length_app. simpl. lia. }
    assert (to_uint32 (TSQ.size q1) = Z.of_nat (length (TSQ.data_queue_ q1))) as Hsize.
    { apply (size_as_unsigned (vlm_queue_max_size ds) Hmax). rewrite Hlen. lia. }
    rewrite IH.
    + change (vlm_frame_queue (enqueue_frame ds fm)) with q1.
      change (vlm_queue_max_size (enqueue_frame ds fm)) with (vlm_queue_max_size ds).
      change (printed (enqueue_frame ds fm))
        with (printed ds ++
              [EnqueueLine (to_int32 (NvDsFrameMeta.source_id fm))
                           (to_int32 (to_uint32 (NvDsFrameMeta.frame_num fm)))
                           (to_uint32 (TSQ.size q1))]).
      rewrite Hsize, Hlen, <- app_assoc. f_equal.
      cbn [imap app]. f_equal.
      apply imap_ext. intros i x _. cbn. f_equal. lia.
    + exact Hmax.
    + change (vlm_frame_queue (enqueue_frame ds fm)) with q1.
      change (vlm_queue_max_size (enqueue_frame ds fm)) with (vlm_queue_max_size ds).
      rewrite Hlen. lia.
Qed.

(** Claim C2.  In a run of healthy buffers through an enabled element with
    interval [N >= 1], the batch at position [k] (counting from zero)
    raises the shared counter once, to [counter + k + 1] (modulo [2^64]),
    whatever the number of sources in it; it is admitted exactly when that
    value is a multiple of [N].  An admitted batch goes through the
    evict-then-push sequence once per source, and a batch that is not
    admitted leaves the queue and the output alone.  With a capacity in the
    range of a [guint] and a queue that starts within it, the queue after
    an admitted batch holds, oldest first, the newest [capacity] of what it
    held before followed by one frame per source, in the order of the
    batch: 1920 by 1080, format "RGB", with the source's presentation time,
    source id and frame number; and one line is printed per source, in
    order, with the source id, the frame number and the size of the queue
    right after that source's push.  With [N = 30] and the counter starting
    at zero, of 60 batches exactly the 30th and the 60th are admitted. *)
Theorem sampling_cadence (ds : GstDsExample) (bufs : list GstBuffer)
    (k : nat) (inbuf : GstBuffer) (frames : list NvDsFrameMeta.t) :
  vlm_enabled ds = true ->
  1 <= vlm_frame_interval ds ->
  0 <= vlm_frame_counter ds < 2 ^ 64 ->
  Forall healthy bufs ->
  bufs !! k = Some inbuf ->
  batch_meta inbuf = Some frames ->
  let before := process_batches ds (take k bufs) in
  let after := process_batches ds (take (S k) bufs) in
  let counter := to_uint64 (vlm_frame_counter ds + Z.of_nat k + 1) in
  let admitted := counter mod vlm_frame_interval ds =? 0 in
  let capacity := Z.to_nat (vlm_queue_max_size ds) in
  let held := TSQ.data_queue_ (vlm_frame_queue before) in
  let sampled :=
    (fun frame_meta =>
       VLMFrameData.mk 1920 1080
         (to_uint64 (NvDsFrameMeta.buf_pts frame_meta))
         (to_uint32 (NvDsFrameMeta.source_id frame_meta))
         (to_uint64 (NvDsFrameMeta.frame_num frame_meta))
         "RGB") <$> frames in
  vlm_frame_counter before = to_uint64 (vlm_frame_counter ds + Z.of_nat k) /\
  vlm_frame_counter after = counter /\
  vlm_frame_queue after
    = (if admitted
       then enqueue_all (vlm_queue_max_size ds) VLMFrameData.default
              (make_vlm_frame <$> frames) (vlm_frame_queue before)
       else vlm_frame_queue before) /\
  (exists lines, printed after = printed before ++ lines /\
                 length lines = if admitted then length frames else 0%nat) /\
  (vlm_frame_counter ds = 0 -> vlm_frame_interval ds = 30 -> length bufs = 60%nat ->
     (admitted = true <-> (S k = 30 \/ S k = 60)%nat)) /\
  (1 <= vlm_queue_max_size ds < 2 ^ 32 ->
   (length (TSQ.data_queue_ (vlm_frame_queue ds)) <= capacity)%nat ->
   TSQ.data_queue_ (vlm_frame_queue after)
     = (if admitted
        then drop (length held + length frames - capacity) (held ++ sampled)
        else held) /\
   TSQ.is_terminated_ (vlm_frame_queue after)
     = TSQ.is_terminated_ (vlm_frame_queue before) /\
   printed after
     = printed before ++
       (if admitted
        then imap (fun i frame_meta =>
                     EnqueueLine
                       (to_int32 (NvDsFrameMeta.source_id frame_meta))
                       (to_int32 (to_uint32 (NvDsFrameMeta.frame_num frame_meta)))
                       (Z.of_nat (Nat.min (length held + S i) capacity)))
                  frames
        else [])).
Proof.
  intros He HN Hc Hh Hk Hfr before after counter admitted capacity held sampled.
  assert (k < length bufs)%nat as Hlt by (eapply lookup_lt_Some; eassumption).
  assert (Forall healthy (take k bufs)) as Hh' by now apply Forall_take.
  destruct (process_batches_state (take k bufs) ds He Hc Hh')
    as (He1 & Hi1 & Hm1 & Hc1).
  rewrite length_take, Nat.min_l in Hc1 by lia.
  fold before in He1, Hi1, Hm1, Hc1.
  assert (healthy inbuf) as Hb.
  { rewrite Forall_forall in Hh. apply Hh.
    eapply list_elem_of_lookup_2. eassumption. }
  assert (after = snd (gst_dsexample_transform_ip before inbuf)) as Hafter.
  { subst after before. rewrite (take_S_r bufs k inbuf Hk).
    apply process_batches_snoc. }
  destruct (transform_ip_effect before inbuf frames He1 Hb Hfr)
    as (_ & _ & _ & _ & Hc2 & Hq2 & Hp2).
  rewrite <- Hafter in Hc2, Hq2, Hp2.
  rewrite Hc1, to_uint64_succ in Hc2. fold counter in Hc2.
  rewrite Hc2, Hi1, Hm1 in Hq2. rewrite Hc2, Hi1 in Hp2.
  fold admitted in Hq2, Hp2.
  split; [exact Hc1|]. split; [exact Hc2|]. split; [exact Hq2|].
  split; [exact Hp2|].
  split.
  { intros H0 H30 H60. subst admitted counter. rewrite H0, H30.
    rewrite to_uint64_small by lia.
    rewrite Z.eqb_eq. split.
    - intros Hmod. apply Z.mod_divide in Hmod; [|lia].
      destruct Hmod as [m Hm]. lia.
    - intros [Hk30|Hk60].
      + replace (0 + Z.of_nat k + 1) with 30 by lia. reflexivity.
      + replace (0 + Z.of_nat k + 1) with 60 by lia. reflexivity. }
  intros Hmax Hq.
  assert (length held <= capacity)%nat as Hheld
    by (apply process_batches_within_capacity; assumption).
  assert (after = if admitted
                  then enqueue_frames (bump_vlm_frame_counter (bump_frame_num before)) frames
                  else bump_vlm_frame_counter (bump_frame_num before)) as Hstep.
  { rewrite Hafter.
    destruct Hb as (Hcu & Hma & Hgp & _).
    rewrite (transform_ip_healthy before inbuf frames) by assumption.
    cbn [snd]. rewrite sample_frames_all_or_none. unfold admits.
    change (vlm_frame_counter (bump_vlm_frame_counter (bump_frame_num before)))
      with (to_uint64 (vlm_frame_counter before + 1)).
    change (vlm_frame_interval (bump_vlm_frame_counter (bump_frame_num before)))
      with (vlm_frame_interval before).
    rewrite Hc1, to_uint64_succ, Hi1. reflexivity. }
  rewrite Hq2. rewrite Hstep. clear Hstep Hq2 Hp2.
  destruct admitted.
  - split_and!.
    + rewrite (enqueue_all_data _ _ Hmax) by exact Hheld.
      rewrite length_fmap. reflexivity.
    + apply enqueue_all_keeps_flag.
    + rewrite enqueue_frames_printed.
      * change (vlm_queue_max_size (bump_vlm_frame_counter (bump_frame_num before)))
          with (vlm_queue_max_size before).
        rewrite Hm1. reflexivity.
      * change (vlm_queue_max_size (bump_vlm_frame_counter (bump_frame_num before)))
          with (vlm_queue_max_size before).
        now rewrite Hm1.
      * change (vlm_queue_max_size (bump_vlm_frame_counter (bump_frame_num before)))
          with (vlm_queue_max_size before).
        rewrite Hm1. exact Hheld.
  - split_and!; [reflexivity|reflexivity|]. simpl. now rewrite app_nil_r.
Qed.

(** The second of three two-source batches through an enabled element
    with interval 2 and capacity 100: it raises the counter to 2, is
    admitted, and puts one frame per source in the empty queue. *)
Lemma sampling_cadence_witness :
  let inbuf := mkBuffer true true true
                 (Some [NvDsFrameMeta.mk 1000 0 7; NvDsFrameMeta.mk 1000 1 7]) in
  let bufs := [inbuf; inbuf; inbuf] in
  let ds := mkDsExample 0 true false 0 2 100 TSQ.init [] in
  TSQ.data_queue_ (vlm_frame_queue (process_batches ds (take 2 bufs)))
  = [VLMFrameData.mk 1920 1080 1000 0 7 "RGB";
     VLMFrameData.mk 1920 1080 1000 1 7 "RGB"] /\
  printed (process_batches ds (take 2 bufs))
  = [EnqueueLine 0 7 1; EnqueueLine 1 7 2].
Proof.
  intros inbuf bufs ds.
  assert (healthy inbuf) as Hb by (repeat split; eexists; reflexivity).
  assert (Forall healthy bufs) as Hbs
    by (unfold bufs; repeat (constructor; [exact Hb|]); constructor).
  assert (1 <= vlm_frame_interval ds) as HN by (simpl; lia).
  assert (0 <= vlm_frame_counter ds < 2 ^ 64) as Hc by (simpl; lia).
  assert (1 <= vlm_queue_max_size ds < 2 ^ 32) as Hmax by (simpl; lia).
  assert (length (TSQ.data_queue_ (vlm_frame_queue ds))
          <= Z.to_nat (vlm_queue_max_size ds))%nat as Hq by (simpl; lia).
  pose proof (proj2 (proj2 (proj2 (proj2 (proj2
                (sampling_cadence ds bufs 1 inbuf _ eq_refl HN Hc Hbs eq_refl eq_refl)))))
                Hmax Hq) as (Hdata & _ & Hprinted).
  split; [exact Hdata | exact Hprinted].
Defined.

(** The cadence on numbers: 60 batches of two sources at the default
    interval leave the four frames of batches 30 and 60 in the queue. *)
Example sixty_batches_two_sources :
  let batch n := mkBuffer true true true
                   (Some [NvDsFrameMeta.mk (40 * n) 0 n; NvDsFrameMeta.mk (40 * n) 1 n]) in
  let ds := process_batches gst_dsexample_init (batch <$> seqZ 1 60) in
  vlm_frame_counter ds = 60 /\
  (fun f => (VLMFrameData.source_id f, VLMFrameData.frame_number f))
    <$> TSQ.data_queue_ (vlm_frame_queue ds)
  = [(0, 30); (1, 30); (0, 60); (1, 60)] /\
  length (printed ds) = 4%nat.
Proof. vm_compute. repeat split; reflexivity. Qed.

(** ** The Redis client *)

Section ClientFacts.
Context {W : Type}.
Variable redisConnect : string -> Z -> W -> W * redisContext.
Variable redisCommand : list string -> W -> W * option redisReply.

Implicit Types (c : RedisClient) (w : W).

Lemma ensure_connected_when_connected c w :
  is_connected c = true ->
  ensure_connected redisConnect redisCommand c w = Returned (true, c, w).
Proof. intros Hc. unfold ensure_connected. now rewrite Hc. Qed.

Lemma ensure_connected_fails c w :
  cannot_connect redisConnect redisCommand c w ->
  exists c' w',
    ensure_connected redisConnect redisCommand c w = Returned (false, c', w').
Proof.
  intros [Hc (c' & w' & Hconn)]. exists c', w'.
  unfold ensure_connected. now rewrite Hc.
Qed.

(** The first half of claim C6: when the connection cannot be set up,
    every operation returns its empty or false result. *)
Lemma operations_degrade_when_unreachable c w :
  cannot_connect redisConnect redisCommand c w ->
  exists c' w',
    (forall stream fs,
       xadd redisConnect redisCommand stream fs c w = Returned ("", c', w')) /\
    (forall stream start count block_ms,
       xread redisConnect redisCommand stream start count block_ms c w
       = Returned ([], c', w')) /\
    (forall stream start end_ count,
       xrange redisConnect redisCommand stream start end_ count c w
       = Returned ([], c', w')) /\
    (forall stream group start,
       xgroup_create redisConnect redisCommand stream group start c w
       = Returned (false, c', w')) /\
    (forall group consumer stream count block_ms,
       xreadgroup redisConnect redisCommand group consumer stream count block_ms c w
       = Returned ([], c', w')) /\
    (forall stream group message_id,
       xack redisConnect redisCommand stream group message_id c w
       = Returned (false, c', w')) /\
    (forall stream,
       xinfo_stream redisConnect redisCommand stream c w = Returned (∅, c', w')).
Proof.
  intros Hcc. destruct (ensure_connected_fails c w Hcc) as (c' & w' & He).
  exists c', w'.
  unfold xadd, xread, xrange, xgroup_create, xreadgroup, xack, xinfo_stream.
  rewrite He. repeat split.
Qed.

(** A null reply, or a reply that is not an array, parses to nothing. *)
Lemma parse_non_array reply :
  (forall element, reply <> Some (REDIS_REPLY_ARRAY element)) ->
  parse_xrange_reply reply = Returned [] /\ parse_xread_reply reply = Returned [].
Proof.
  intros Hna. destruct reply as [[s|element|n| |s|s]|]; try (split; reflexivity).
  now destruct (Hna element).
Qed.
End ClientFacts.

(** ** Words as the server receives them *)

Lemma to_uint_nonnil (n : N) : N.to_uint n <> Decimal.Nil.
Proof. destruct n; [discriminate|]. apply Unsigned.to_uint_nonnil. Qed.

Lemma to_string_digits n :
  to_string n = NilEmpty.string_of_uint (N.to_uint (Z.to_N n)).
Proof.
  unfold to_string, NilZero.string_of_uint.
  pose proof (to_uint_nonnil (Z.to_N n)) as H.
  destruct (N.to_uint (Z.to_N n)); [contradiction|reflexivity..].
Qed.

(** A text without a NUL byte is its own C string. *)
Lemma c_str_without_nul s :
  find_char "000" s = None -> c_str s = s.
Proof.
  induction s as [|a s IH]; [reflexivity|]. simpl.
  destruct (Ascii.eqb a "000"); [discriminate|].
  destruct (find_char "000" s); [discriminate|].
  intros _. now rewrite IH.
Qed.

(** The C string of a text never holds a NUL byte, so taking it twice
    changes nothing. *)
Lemma c_str_has_no_nul s : find_char "000" (c_str s) = None.
Proof.
  induction s as [|a s IH]; [reflexivity|]. simpl.
  destruct (Ascii.eqb a "000") eqn:E; [reflexivity|].
  simpl. rewrite E, IH. reflexivity.
Qed.

Lemma c_str_idempotent s : c_str (c_str s) = c_str s.
Proof. apply c_str_without_nul, c_str_has_no_nul. Qed.

(** The C string of a text is the part in front of its first NUL byte. *)
Lemma c_str_cuts_at_nul s pos :
  find_char "000" s = Some pos -> c_str s = substring 0 pos s.
Proof.
  revert pos. induction s as [|a s IH]; intros pos; [discriminate|]. simpl.
  destruct (Ascii.eqb a "000").
  - intros [= <-]. reflexivity.
  - destruct (find_char "000" s) as [p|]; [|discriminate].
    intros [= <-]. simpl. now rewrite (IH p).
Qed.

Lemma c_str_digits d :
  c_str (NilEmpty.string_of_uint d) = NilEmpty.string_of_uint d.
Proof. induction d; simpl; congruence. Qed.

(** A decimal numeral goes out in full. *)
Lemma c_str_to_string n : c_str (to_string n) = to_string n.
Proof. rewrite to_string_digits. apply c_str_digits. Qed.

(** The order in which [xadd] walks the six fields of a result record and
    the seven fields of a frame record. *)
Lemma vlm_result_key_order (f s r m ts t : string) :
  in_key_order
    (<["type" := t]> (<["timestamp" := ts]> (<["model_name" := m]>
    (<["vlm_response" := r]> (<["source_id" := s]> (<["frame_number" := f]> ∅))))))
  = [("frame_number", f); ("model_name", m); ("source_id", s);
     ("timestamp", ts); ("type", t); ("vlm_response", r)].
Proof. vm_compute. reflexivity. Qed.

Lemma frame_metadata_key_order (f s wd h fmt ts t : string) :
  in_key_order
    (<["type" := t]> (<["timestamp" := ts]> (<["format" := fmt]>
    (<["height" := h]> (<["width" := wd]> (<["source_id" := s]>
    (<["frame_number" := f]> ∅)))))))
  = [("format", fmt); ("frame_number", f); ("height", h); ("source_id", s);
     ("timestamp", ts); ("type", t); ("width", wd)].
Proof. vm_compute. reflexivity. Qed.

(** The words of the XADD that carries a result record. *)
Lemma XADD_vlm_result {W : Type} (system_clock_now : W -> Z)
    (stream : string) (frame_number source_id : Z)
    (vlm_response model_name : string) (w : W) :
  XADD stream (vlm_result_fields system_clock_now frame_number source_id
                 vlm_response model_name w)
  = ["XADD"; c_str stream; "*";
     "frame_number"; to_string (to_uint32 frame_number);
     "model_name"; c_str model_name;
     "source_id"; to_string (to_uint32 source_id);
     "timestamp"; to_string (to_uint64 (system_clock_now w));
     "type"; "vlm_result";
     "vlm_response"; c_str vlm_response].
Proof.
  unfold XADD, vlm_result_fields, get_current_timestamp.
  rewrite vlm_result_key_order.
  cbn [flatten_pairs flat_map app fmap list_fmap fst snd].
  rewrite !c_str_to_string. reflexivity.
Qed.

(** The words of the XADD that carries a frame record. *)
Lemma XADD_frame_metadata {W : Type} (system_clock_now : W -> Z)
    (stream : string) (frame_number source_id width height : Z)
    (format : string) (w : W) :
  XADD stream (frame_metadata_fields system_clock_now frame_number source_id
                 width height format w)
  = ["XADD"; c_str stream; "*";
     "format"; c_str format;
     "frame_number"; to_string (to_uint32 frame_number);
     "height"; to_string (to_uint32 height);
     "source_id"; to_string (to_uint32 source_id);
     "timestamp"; to_string (to_uint64 (system_clock_now w));
     "type"; "frame_metadata";
     "width"; to_string (to_uint32 width)].
Proof.
  unfold XADD, frame_metadata_fields, get_current_timestamp.
  rewrite frame_metadata_key_order.
  cbn [flatten_pairs flat_map app fmap list_fmap fst snd].
  rewrite !c_str_to_string. reflexivity.
Qed.

(** ** Publishing a result *)

(** Claim C5, as the code has it.  The field map built by
    [add_vlm_result] has exactly six entries: the caller's frame number and
    source id in decimal, the caller's response text and model name, a
    [timestamp] read from the host's own clock when the call is made, and
    the [type] tag "vlm_result".  On a connected client these fields go out
    in one XADD command whose words are read as C strings: the name of the
    results stream, the response text and the model name each end at their
    first NUL byte, and go out in full when they hold none; the numbers,
    the timestamp and the tag go out in full.  The id argument is "*", so
    the server chooses the record id (and nothing else), and the call
    returns the id from the server's string reply. *)
Theorem add_vlm_result_record {W : Type}
    (redisConnect : string -> Z -> W -> W * redisContext)
    (redisCommand : list string -> W -> W * option redisReply)
    (system_clock_now : W -> Z)
    (frame_number source_id : Z) (vlm_response model_name : string)
    (mgr : VLMRedisStreamManager) (w : W) :
  is_connected (redis_client_ mgr) = true ->
  let fs := vlm_result_fields system_clock_now frame_number source_id
              vlm_response model_name w in
  fs !! "frame_number" = Some (to_string (to_uint32 frame_number)) /\
  fs !! "source_id" = Some (to_string (to_uint32 source_id)) /\
  fs !! "vlm_response" = Some vlm_response /\
  fs !! "model_name" = Some model_name /\
  fs !! "timestamp" = Some (to_string (to_uint64 (system_clock_now w))) /\
  fs !! "type" = Some "vlm_result" /\
  dom fs = ({["frame_number"; "source_id"; "vlm_response"; "model_name";
              "timestamp"; "type"]} : gset string) /\
  XADD (vlm_stream_ mgr) fs
  = ["XADD"; c_str (vlm_stream_ mgr); "*";
     "frame_number"; to_string (to_uint32 frame_number);
     "model_name"; c_str model_name;
     "source_id"; to_string (to_uint32 source_id);
     "timestamp"; to_string (to_uint64 (system_clock_now w));
     "type"; "vlm_result";
     "vlm_response"; c_str vlm_response] /\
  (find_char "000" vlm_response = None -> c_str vlm_response = vlm_response) /\
  (find_char "000" model_name = None -> c_str model_name = model_name) /\
  (forall pos, find_char "000" vlm_response = Some pos ->
               c_str vlm_response = substring 0 pos vlm_response) /\
  (forall pos, find_char "000" model_name = Some pos ->
               c_str model_name = substring 0 pos model_name) /\
  add_vlm_result redisConnect redisCommand system_clock_now
    frame_number source_id vlm_response model_name mgr w
  = (let '(w', reply) := redisCommand (XADD (vlm_stream_ mgr) fs) w in
     Returned (match reply with
               | Some (REDIS_REPLY_STRING message_id) => message_id
               | _ => ""
               end, mgr, w')).
Proof.
  intros Hc fs.
  assert (add_vlm_result redisConnect redisCommand system_clock_now
            frame_number source_id vlm_response model_name mgr w
          = (let '(w', reply) := redisCommand (XADD (vlm_stream_ mgr) fs) w in
             Returned (match reply with
                       | Some (REDIS_REPLY_STRING message_id) => message_id
                       | _ => ""
                       end, mgr, w'))) as Hcall.
  { unfold add_vlm_result, xadd.
    rewrite ensure_connected_when_connected by assumption.
    fold fs. simpl.
    destruct (redisCommand _ w) as [w' reply]. simpl.
    destruct mgr. reflexivity. }
  pose proof (XADD_vlm_result system_clock_now (vlm_stream_ mgr) frame_number
                source_id vlm_response model_name w) as Hwords.
  fold fs in Hwords.
  split_and!;
    [reflexivity | reflexivity | reflexivity | reflexivity | reflexivity
    | reflexivity | reflexivity | exact Hwords
    | apply c_str_without_nul | apply c_str_without_nul
    | apply c_str_cuts_at_nul | apply c_str_cuts_at_nul | exact Hcall].
Qed.

(** The usage example of redis_client.h:
    [add_vlm_result(123, 0, "Car on highway")]. *)
Lemma add_vlm_result_record_witness :
  is_connected (redis_client_
                  (mkManager connected_client "vlm:results:stream"
                     "vlm:frames:stream" "vlm_processors" "deepstream_vlm")) = true /\
  XADD "vlm:results:stream"
    (vlm_result_fields (fun _ : unit => 1700000000123) 123 0 "Car on highway" "default" tt)
  = ["XADD"; "vlm:results:stream"; "*";
     "frame_number"; "123"; "model_name"; "default"; "source_id"; "0";
     "timestamp"; "1700000000123"; "type"; "vlm_result";
     "vlm_response"; "Car on highway"].
Proof.
  split; [reflexivity|].
  refine (proj1 (proj2 (proj2 (proj2 (proj2 (proj2 (proj2 (proj2
    (add_vlm_result_record reachable (replies_with (Some (REDIS_REPLY_STRING "1700000000123-0")))
       (fun _ : unit => 1700000000123) 123 0 "Car on highway" "default"
       (mkManager connected_client "vlm:results:stream"
          "vlm:frames:stream" "vlm_processors" "deepstream_vlm") tt _))))))))).
  reflexivity.
Defined.

(** A response text with a NUL byte after "Car" reaches the server as
    "Car": the field map still holds the whole text, the command does
    not. *)
Example response_is_cut_at_nul :
  let response := "Car" +:+ String "000" "on highway" in
  let fs := vlm_result_fields (fun _ : unit => 1700000000123) 123 0 response "default" tt in
  fs !! "vlm_response" = Some response /\
  XADD "vlm:results:stream" fs
  = ["XADD"; "vlm:results:stream"; "*";
     "frame_number"; "123"; "model_name"; "default"; "source_id"; "0";
     "timestamp"; "1700000000123"; "type"; "vlm_result";
     "vlm_response"; "Car"].
Proof. vm_compute. split; reflexivity. Qed.

(** Claim C5 as stated fails on two counts: the record carries the type
    tag "vlm_result", not "result", and its timestamp is the publishing
    host's clock reading, fixed before anything is sent, so two servers
    that assign different ids receive the same timestamp field. *)
Lemma published_record_tag_and_timestamp :
  let now := fun _ : unit => 1700000000123 in
  let fs := vlm_result_fields now 123 0 "Car on highway" "default" tt in
  let mgr := mkManager connected_client "vlm:results:stream"
               "vlm:frames:stream" "vlm_processors" "deepstream_vlm" in
  fs !! "type" <> Some "result" /\
  fs !! "type" = Some "vlm_result" /\
  fs !! "timestamp" = Some "1700000000123" /\
  XADD "vlm:results:stream" fs
  = ["XADD"; "vlm:results:stream"; "*";
     "frame_number"; "123"; "model_name"; "default"; "source_id"; "0";
     "timestamp"; "1700000000123"; "type"; "vlm_result";
     "vlm_response"; "Car on highway"] /\
  add_vlm_result reachable (replies_with (Some (REDIS_REPLY_STRING "1800000000000-0")))
    now 123 0 "Car on highway" "default" mgr tt
  = Returned ("1800000000000-0", mgr, tt) /\
  add_vlm_result reachable (replies_with (Some (REDIS_REPLY_STRING "1900000000000-7")))
    now 123 0 "Car on highway" "default" mgr tt
  = Returned ("1900000000000-7", mgr, tt).
Proof.
  vm_compute. repeat split. discriminate.
Qed.

(** ** Replies the parsers do not expect *)

(** [stoull] on the text before the dash of an id. *)
Example stoull_examples :
  stoull "1700000000000" = Returned 1700000000000 /\
  stoull "  42abc" = Returned 42 /\
  stoull "abc" = Thrown invalid_argument /\
  stoull "" = Thrown invalid_argument /\
  stoull "18446744073709551615" = Returned (2 ^ 64 - 1) /\
  stoull "18446744073709551616" = Thrown out_of_range.
Proof. vm_compute. repeat split; reflexivity. Qed.

(** A well-formed XRANGE reply is parsed into its messages. *)
Example xrange_well_formed :
  xrange reachable
    (replies_with
       (Some (REDIS_REPLY_ARRAY
                [REDIS_REPLY_ARRAY
                   [REDIS_REPLY_STRING "1700000000000-0";
                    REDIS_REPLY_ARRAY [REDIS_REPLY_STRING "a"; REDIS_REPLY_STRING "1"]]])))
    "s" "-" "+" 10 connected_client tt
  = Returned ([mkStreamMessage "1700000000000-0" {["a" := "1"]} 1700000000000],
              connected_client, tt).
Proof. vm_compute. reflexivity. Qed.

(** Entries of the wrong shape inside an array reply are skipped, the
    others are kept. *)
Example xrange_skips_misshapen_entries :
  parse_xrange_reply
    (Some (REDIS_REPLY_ARRAY
             [REDIS_REPLY_INTEGER 42;
              REDIS_REPLY_ARRAY [REDIS_REPLY_STRING "5-1"];
              REDIS_REPLY_ARRAY [REDIS_REPLY_NIL; REDIS_REPLY_ARRAY []];
              REDIS_REPLY_ARRAY [REDIS_REPLY_STRING "7-0"; REDIS_REPLY_NIL]]))
  = Returned [mkStreamMessage "7-0" ∅ 7].
Proof. vm_compute. reflexivity. Qed.

(** A client with a password whose AUTH command gets no reply reads
    [reply->type] through a null pointer. *)
Example auth_without_reply_faults :
  xadd reachable (replies_with None) "vlm:results:stream" ∅
    (new_RedisClient "localhost" 6379 "secret") tt
  = NullDeref.
Proof. vm_compute. reflexivity. Qed.

(** Claim C6 fails on the code.  A reply whose entry id has a dash but no
    number in front of it ("abc-0"), or a number that does not fit 64 bits,
    makes [std::stoull] throw inside [parse_stream_message]; nothing
    catches it, so [xrange], [xread] and [xreadgroup] let the exception
    escape to the caller instead of returning an empty result. *)
Theorem malformed_id_escapes_as_exception :
  let entry id_text :=
    REDIS_REPLY_ARRAY [REDIS_REPLY_STRING id_text; REDIS_REPLY_ARRAY []] in
  let range_reply id_text := Some (REDIS_REPLY_ARRAY [entry id_text]) in
  let read_reply id_text :=
    Some (REDIS_REPLY_ARRAY
            [REDIS_REPLY_ARRAY [REDIS_REPLY_STRING "vlm:results:stream";
                                REDIS_REPLY_ARRAY [entry id_text]]]) in
  xrange reachable (replies_with (range_reply "abc-0"))
    "vlm:results:stream" "-" "+" 10 connected_client tt
  = Thrown invalid_argument /\
  xrange reachable (replies_with (range_reply "99999999999999999999-0"))
    "vlm:results:stream" "-" "+" 10 connected_client tt
  = Thrown out_of_range /\
  xread reachable (replies_with (read_reply "abc-0"))
    "vlm:results:stream" "0" 10 0 connected_client tt
  = Thrown invalid_argument /\
  xreadgroup reachable (replies_with (read_reply "-0"))
    "vlm_processors" "deepstream_vlm" "vlm:results:stream" 1 1000 connected_client tt
  = Thrown invalid_argument.
Proof. vm_compute. repeat split; reflexivity. Qed.

(** ** Consumer groups and acknowledgements *)

(** Claim C7.  On a connected client, against a server that honours the
    XGROUP CREATE contract, [xgroup_create] returns [true] both on the
    first call and when repeated with the same arguments; the repeated call
    leaves the group's delivery cursor where it was, and so does a first
    call that finds the group already there. *)
Theorem xgroup_create_idempotent {W : Type}
    (redisConnect : string -> Z -> W -> W * redisContext)
    (redisCommand : list string -> W -> W * option redisReply)
    (view : ServerView W)
    (c : RedisClient) (w : W) (stream group start_id : string) :
  is_connected c = true ->
  let w1 := fst (redisCommand (XGROUP_CREATE stream group start_id) w) in
  xgroup_create_contract redisCommand view w stream group start_id ->
  xgroup_create_contract redisCommand view w1 stream group start_id ->
  xgroup_create redisConnect redisCommand stream group start_id c w
    = Returned (true, c, w1) /\
  (group_exists view w stream group = true ->
     delivery_cursor view w1 stream group = delivery_cursor view w stream group) /\
  exists w2,
    xgroup_create redisConnect redisCommand stream group start_id c w1
      = Returned (true, c, w2) /\
    delivery_cursor view w2 stream group = delivery_cursor view w1 stream group.
Proof.
  intros Hc w1 Hfirst Hsecond. subst w1.
  unfold xgroup_create_contract in Hfirst, Hsecond.
  unfold xgroup_create.
  rewrite !ensure_connected_when_connected by assumption. simpl.
  destruct (redisCommand (XGROUP_CREATE stream group start_id) w)
    as [w1 reply1] eqn:H1.
  simpl in *. destruct Hfirst as [Hex1 Hfirst].
  rewrite Hex1 in Hsecond.
  destruct (redisCommand (XGROUP_CREATE stream group start_id) w1)
    as [w2 reply2] eqn:H2.
  destruct Hsecond as [_ [(msg2 & -> & Hbusy2) Hcur2]].
  split_and!.
  - destruct (group_exists view w stream group).
    + destruct Hfirst as [(msg1 & -> & Hbusy1) _]. now rewrite Hbusy1.
    + destruct Hfirst as (msg1 & ->). reflexivity.
  - intros Hex. rewrite Hex in Hfirst. now destruct Hfirst as [_ Hcur].
  - exists w2. rewrite Hbusy2. split; [reflexivity|assumption].
Qed.

(** Creating the results group twice on a server that has none. *)
Lemma xgroup_create_idempotent_witness :
  let w := MiniServer.mk [] [] [] in
  let w1 := fst (MiniServer.command (XGROUP_CREATE "vlm:results:stream" "vlm_processors" "0") w) in
  is_connected connected_client = true /\
  xgroup_create reachable MiniServer.command
    "vlm:results:stream" "vlm_processors" "0" connected_client w
    = Returned (true, connected_client, w1) /\
  xgroup_create reachable MiniServer.command
    "vlm:results:stream" "vlm_processors" "0" connected_client w1
    = Returned (true, connected_client, w1).
Proof.
  intros w w1.
  assert (is_connected connected_client = true) as Hc by reflexivity.
  assert (xgroup_create_contract MiniServer.command MiniServer.view w
            "vlm:results:stream" "vlm_processors" "0") as H1.
  { vm_compute. split; [reflexivity|]. eexists. reflexivity. }
  assert (xgroup_create_contract MiniServer.command MiniServer.view w1
            "vlm:results:stream" "vlm_processors" "0") as H2.
  { vm_compute. split; [reflexivity|]. split; [|reflexivity].
    eexists. split; reflexivity. }
  destruct (xgroup_create_idempotent reachable MiniServer.command MiniServer.view
              connected_client w "vlm:results:stream" "vlm_processors" "0"
              Hc H1 H2) as (Hfirst & _ & _).
  split; [exact Hc|]. split; [exact Hfirst|]. reflexivity.
Defined.



(* ===================================================================== *)
(** * Further properties *)
(* ===================================================================== *)

(** ** More on the queue *)

(** Property X1.  The overload [wait_and_pop(T&)] does not look at the terminated flag:
    it blocks exactly when the queue is empty and otherwise hands back the
    front item, so on an empty queue it stays blocked after [terminate()],
    where the pointer overload returns [nullptr]. *)
Theorem wait_and_pop_ref_ignores_terminate {T : Type} (q : TSQ.t T) :
  (TSQ.wait_and_pop_ref q = TSQ.RefBlocks <-> TSQ.data_queue_ q = []) /\
  (forall front rest, TSQ.data_queue_ q = front :: rest ->
     TSQ.wait_and_pop_ref q
     = TSQ.RefReturns front (TSQ.mk rest (TSQ.is_terminated_ q))) /\
  (forall cs : list (TSQ.call T),
     let q' := TSQ.after_calls (TSQ.terminate q) cs in
     TSQ.data_queue_ q' = [] ->
     TSQ.wait_and_pop_ref q' = TSQ.RefBlocks /\
     TSQ.wait_and_pop q' = TSQ.Returns None q').
Proof.
  assert (forall q0 : TSQ.t T, TSQ.data_queue_ q0 = [] ->
            TSQ.wait_and_pop_ref q0 = TSQ.RefBlocks) as Hempty.
  { intros q0 H0. unfold TSQ.wait_and_pop_ref, TSQ.empty. now rewrite H0. }
  assert (forall (q0 : TSQ.t T) front rest, TSQ.data_queue_ q0 = front :: rest ->
            TSQ.wait_and_pop_ref q0
            = TSQ.RefReturns front (TSQ.mk rest (TSQ.is_terminated_ q0))) as Hfront.
  { intros q0 front rest H0. unfold TSQ.wait_and_pop_ref, TSQ.empty.
    now rewrite H0. }
  split_and!.
  - split; [|apply Hempty].
    intros Hb. destruct (TSQ.data_queue_ q) as [|x rest] eqn:Hd; [reflexivity|].
    rewrite (Hfront q x rest Hd) in Hb. discriminate.
  - apply Hfront.
  - intros cs q' Hd. split; [now apply Hempty|].
    apply wait_and_pop_terminated. now apply after_calls_keeps_terminated.
Qed.

Lemma push_all_data {T : Type} (items : list T) (q : TSQ.t T) :
  TSQ.push_all items q
  = TSQ.mk (TSQ.data_queue_ q ++ items) (TSQ.is_terminated_ q).
Proof.
  revert q. induction items as [|v items IH]; intros q.
  - destruct q; simpl. now rewrite app_nil_r.
  - change (TSQ.push_all (v :: items) q) with (TSQ.push_all items (TSQ.push v q)).
    rewrite IH. simpl. now rewrite <- app_assoc.
Qed.

(** Property X2.  Items pushed with [push] come back from [try_pop()] oldest first,
    behind whatever was queued before; after as many pops as there were
    items the queue is empty and further pops return nothing. *)
Theorem push_then_pop_is_fifo {T : Type} (items : list T) (q : TSQ.t T) (extra : nat) :
  TSQ.drain (length (TSQ.data_queue_ q) + length items + extra)
            (TSQ.push_all items q)
  = (TSQ.data_queue_ q ++ items, TSQ.mk [] (TSQ.is_terminated_ q)) /\
  TSQ.try_pop_ptr (@TSQ.mk T [] (TSQ.is_terminated_ q))
  = (None, TSQ.mk [] (TSQ.is_terminated_ q)).
Proof.
  split; [|reflexivity].
  rewrite push_all_data, <- length_app. apply drain_all.
Qed.

(** Property X3.  One run of the evict-then-push sequence on any queue of fewer than
    [2^32] items, for a capacity of at least one: below capacity the item
    is appended, at or above capacity the front item is dropped first.  A
    queue that holds more than the capacity (the property was lowered
    while frames were queued) therefore keeps its length. *)
Theorem enqueue_at_or_over_capacity {T : Type} (max_size : Z) (dropped item : T)
    (q : TSQ.t T) :
  1 <= max_size ->
  Z.of_nat (length (TSQ.data_queue_ q)) < 2 ^ 32 ->
  let q' := enqueue_dropping_oldest max_size dropped item q in
  let len := Z.of_nat (length (TSQ.data_queue_ q)) in
  TSQ.data_queue_ q'
    = (if len <? max_size then TSQ.data_queue_ q else drop 1 (TSQ.data_queue_ q))
      ++ [item] /\
  Z.of_nat (length (TSQ.data_queue_ q'))
    = (if len <? max_size then len + 1 else len).
Proof.
  intros Hmax Hlen q' len. subst q'.
  unfold enqueue_dropping_oldest, evict_if_full, TSQ.size.
  rewrite to_uint32_to_int32, to_uint32_small by lia. fold len.
  destruct (Z.leb_spec max_size len) as [Hfull|Hroom];
    destruct (Z.ltb_spec len max_size) as [Hlt|Hge]; try lia.
  - unfold TSQ.try_pop, TSQ.push.
    destruct (TSQ.data_queue_ q) as [|front rest] eqn:Hd.
    + subst len. simpl in *. lia.
    + cbn [snd TSQ.data_queue_ drop]. split; [reflexivity|].
      subst len. rewrite length_app. simpl. lia.
  - unfold TSQ.push. cbn [TSQ.data_queue_]. split; [reflexivity|].
    subst len. rewrite length_app. simpl. lia.
Qed.

(** A queue of three items after the capacity was lowered to two. *)
Lemma enqueue_at_or_over_capacity_witness :
  TSQ.data_queue_ (enqueue_dropping_oldest 2 0 40 (TSQ.mk [10; 20; 30] false))
  = [20; 30; 40].
Proof.
  refine (proj1 (enqueue_at_or_over_capacity 2 0 40 (TSQ.mk [10; 20; 30] false) _ _)).
  - lia.
  - simpl. lia.
Defined.

(** ** More on the sampling path *)

Lemma enqueue_frames_keeps frames ds :
  frame_num (enqueue_frames ds frames) = frame_num ds /\
  vlm_thread_running (enqueue_frames ds frames) = vlm_thread_running ds /\
  TSQ.is_terminated_ (vlm_frame_queue (enqueue_frames ds frames))
    = TSQ.is_terminated_ (vlm_frame_queue ds).
Proof.
  revert ds. induction frames as [|fm frames IH]; intros ds.
  - repeat split.
  - change (enqueue_frames ds (fm :: frames))
      with (enqueue_frames (enqueue_frame ds fm) frames).
    destruct (IH (enqueue_frame ds fm)) as (Hf & Hr & Ht).
    rewrite Hf, Hr, Ht. split_and!; try reflexivity.
    unfold enqueue_frame, enqueue_dropping_oldest, evict_if_full, TSQ.push, TSQ.try_pop.
    cbn [vlm_frame_queue TSQ.is_terminated_].
    destruct (vlm_queue_max_size ds <=? _); [|reflexivity].
    destruct (TSQ.data_queue_ (vlm_frame_queue ds)); reflexivity.
Qed.

Lemma transform_ip_rejected ds b :
  reaches_sampling b = false ->
  gst_dsexample_transform_ip ds b = (GST_FLOW_ERROR, bump_frame_num ds).
Proof.
  unfold reaches_sampling, gst_dsexample_transform_ip.
  destruct (cuda_ok b), (map_ok b), (gpu_id_ok b), (batch_meta b);
    simpl; intros H; try discriminate; reflexivity.
Qed.

Lemma transform_ip_accepted ds b :
  reaches_sampling b = true ->
  exists frames, batch_meta b = Some frames /\
    gst_dsexample_transform_ip ds b
    = (GST_FLOW_OK,
       if vlm_enabled ds
       then sample_frames (bump_vlm_frame_counter (bump_frame_num ds)) frames
       else bump_frame_num ds).
Proof.
  unfold reaches_sampling, gst_dsexample_transform_ip.
  destruct (cuda_ok b), (map_ok b), (gpu_id_ok b), (batch_meta b) as [frames|];
    simpl; intros H; try discriminate.
  exists frames. split; [reflexivity|]. now destruct (vlm_enabled ds).
Qed.

(** What one buffer does to the two counters and the flags. *)
Lemma transform_ip_counters ds b :
  let ds' := snd (gst_dsexample_transform_ip ds b) in
  frame_num ds' = to_uint64 (frame_num ds + 1) /\
  vlm_enabled ds' = vlm_enabled ds /\
  vlm_thread_running ds' = vlm_thread_running ds /\
  TSQ.is_terminated_ (vlm_frame_queue ds') = TSQ.is_terminated_ (vlm_frame_queue ds) /\
  vlm_frame_counter ds'
    = (if vlm_enabled ds && reaches_sampling b
       then to_uint64 (vlm_frame_counter ds + 1)
       else vlm_frame_counter ds).
Proof.
  destruct (reaches_sampling b) eqn:Hb.
  - destruct (transform_ip_accepted ds b Hb) as (frames & _ & ->).
    cbn [snd]. destruct (vlm_enabled ds) eqn:He.
    + rewrite sample_frames_all_or_none.
      set (ds1 := bump_vlm_frame_counter (bump_frame_num ds)).
      destruct (admits ds1).
      * destruct (enqueue_frames_effect frames ds1) as (He1 & Hc1 & _).
        destruct (enqueue_frames_keeps frames ds1) as (Hf1 & Hr1 & Ht1).
        cbv zeta in He1, Hc1. rewrite He1, Hc1, Hf1, Hr1, Ht1.
        repeat split; assumption.
      * repeat split; assumption.
    + rewrite andb_false_l. repeat split; assumption.
  - rewrite (transform_ip_rejected ds b Hb), andb_false_r. repeat split.
Qed.





(** ** More on the client: connections *)

Section ConnectionFacts.
Context {W : Type}.
Variable redisConnect : string -> Z -> W -> W * redisContext.
Variable redisCommand : list string -> W -> W * option redisReply.
Variable system_clock_now : W -> Z.

Implicit Types (c : RedisClient) (w : W).

Lemma connect_passwordless c w :
  password_ c = "" ->
  exists b c' w',
    connect redisConnect redisCommand c w = Returned (b, c', w') /\
    password_ c' = "".
Proof.
  intros Hp. unfold connect. destruct (connected_ c); [eauto 6|].
  destruct (redisConnect (c_str (host_ c)) (port_ c) w) as [w1 [| |]];
    try (do 3 eexists; split; [reflexivity|exact Hp]).
  rewrite Hp. simpl. do 3 eexists. split; [reflexivity|exact Hp].
Qed.

Lemma ensure_connected_passwordless c w :
  password_ c = "" ->
  exists b c' w',
    ensure_connected redisConnect redisCommand c w = Returned (b, c', w').
Proof.
  intros Hp. unfold ensure_connected. destruct (negb (is_connected c)).
  - destruct (connect_passwordless c w Hp) as (b & c' & w' & H & _). eauto.
  - eauto.
Qed.

Lemma xadd_passwordless stream fs c w :
  password_ c = "" ->
  exists r, xadd redisConnect redisCommand stream fs c w = Returned r.
Proof.
  intros Hp. destruct (ensure_connected_passwordless c w Hp) as (b & c' & w' & He).
  unfold xadd. rewrite He. simpl. destruct b; simpl; [|eauto].
  destruct (redisCommand _ w'). eauto.
Qed.

(** Property X9.  The operations that do not parse stream entries never let an
    exception escape and never fault on a client without a password:
    whatever the server answers, [xadd], [xgroup_create], [xack],
    [xinfo_stream], [set], [publish], the two publishing calls of the
    manager and the worker's [gst_dsexample_send_to_vlm_service] return. *)
Theorem passwordless_operations_always_return c w :
  password_ c = "" ->
  (forall stream fs,
     exists r, xadd redisConnect redisCommand stream fs c w = Returned r) /\
  (forall stream group start,
     exists r, xgroup_create redisConnect redisCommand stream group start c w
               = Returned r) /\
  (forall stream group message_id,
     exists r, xack redisConnect redisCommand stream group message_id c w
               = Returned r) /\
  (forall stream,
     exists r, xinfo_stream redisConnect redisCommand stream c w = Returned r) /\
  (forall key value ttl,
     exists r, set redisConnect redisCommand key value ttl c w = Returned r) /\
  (forall channel message,
     exists r, publish redisConnect redisCommand channel message c w = Returned r) /\
  (forall mgr frame_number source_id response model,
     redis_client_ mgr = c ->
     exists r, add_vlm_result redisConnect redisCommand system_clock_now
                 frame_number source_id response model mgr w = Returned r) /\
  (forall mgr frame_number source_id width height format,
     redis_client_ mgr = c ->
     exists r, add_frame_metadata redisConnect redisCommand system_clock_now
                 frame_number source_id width height format mgr w = Returned r) /\
  (forall el frame_data,
     (forall mgr, vlm_stream_manager el = Some mgr -> redis_client_ mgr = c) ->
     exists r, gst_dsexample_send_to_vlm_service redisConnect redisCommand
                 system_clock_now el frame_data w = Returned r).
Proof.
  intros Hp.
  destruct (ensure_connected_passwordless c w Hp) as (b & c' & w' & He).
  split_and!.
  - intros. now apply xadd_passwordless.
  - intros. unfold xgroup_create. rewrite He. simpl.
    destruct b; simpl; [|eauto]. destruct (redisCommand _ w'). eauto.
  - intros. unfold xack. rewrite He. simpl.
    destruct b; simpl; [|eauto]. destruct (redisCommand _ w'). eauto.
  - intros. unfold xinfo_stream. rewrite He. simpl.
    destruct b; simpl; [|eauto]. destruct (redisCommand _ w'). eauto.
  - intros. unfold set. rewrite He. simpl.
    destruct b; simpl; [|eauto]. destruct (redisCommand _ w'). eauto.
  - intros. unfold publish. rewrite He. simpl.
    destruct b; simpl; [|eauto]. destruct (redisCommand _ w'). eauto.
  - intros mgr fn sid response model <-. unfold add_vlm_result.
    destruct (xadd_passwordless (vlm_stream_ mgr)
                (vlm_result_fields system_clock_now fn sid response model w)
                (redis_client_ mgr) w Hp) as ([[message_id c1] w1] & ->).
    simpl. eauto.
  - intros mgr fn sid width height format <-. unfold add_frame_metadata.
    destruct (xadd_passwordless (frame_stream_ mgr)
                (frame_metadata_fields system_clock_now fn sid width height format w)
                (redis_client_ mgr) w Hp) as ([[message_id c1] w1] & ->).
    simpl. eauto.
  - intros el frame_data Hmgr. unfold gst_dsexample_send_to_vlm_service.
    destruct frame_data as [frame|]; [|eauto].
    destruct (redis_enabled el); [|eauto].
    destruct (vlm_stream_manager el) as [mgr|]; [|eauto].
    destruct (add_vlm_result _ _ _ _ _ _ _ mgr w) as [[[message_id mgr'] w1]|e|] eqn:Ha;
      [eauto|eauto|].
    exfalso. unfold add_vlm_result in Ha.
    specialize (Hmgr mgr eq_refl). subst c.
    destruct (xadd_passwordless (vlm_stream_ mgr)
                (vlm_result_fields system_clock_now
                   (VLMFrameData.frame_number frame) (VLMFrameData.source_id frame)
                   vlm_response "deepstream_vlm_v1" w)
                (redis_client_ mgr) w Hp) as ([[message_id c1] w1] & Hx).
    rewrite Hx in Ha. discriminate.
Qed.

(** Property X10.  On a client that is marked connected, a null reply to every command
    (the connection is gone) makes each operation return its empty or false
    value and leaves the client as it was: still marked connected, so the
    next operation does not reconnect either. *)
Theorem broken_connection_goes_unnoticed c w :
  is_connected c = true ->
  (forall args, snd (redisCommand args w) = None) ->
  (forall stream fs,
     xadd redisConnect redisCommand stream fs c w
     = Returned ("", c, fst (redisCommand (XADD stream fs) w))) /\
  (forall stream start count block_ms,
     xread redisConnect redisCommand stream start count block_ms c w
     = Returned ([], c, fst (redisCommand (XREAD stream start count block_ms) w))) /\
  (forall stream start end_ count,
     xrange redisConnect redisCommand stream start end_ count c w
     = Returned ([], c, fst (redisCommand (XRANGE stream start end_ count) w))) /\
  (forall stream group start,
     xgroup_create redisConnect redisCommand stream group start c w
     = Returned (false, c, fst (redisCommand (XGROUP_CREATE stream group start) w))) /\
  (forall group consumer stream count block_ms,
     xreadgroup redisConnect redisCommand group consumer stream count block_ms c w
     = Returned ([], c,
                 fst (redisCommand (XREADGROUP group consumer stream count block_ms) w))) /\
  (forall stream group message_id,
     xack redisConnect redisCommand stream group message_id c w
     = Returned (false, c, fst (redisCommand (XACK stream group message_id) w))) /\
  (forall stream,
     xinfo_stream redisConnect redisCommand stream c w
     = Returned (∅, c, fst (redisCommand (XINFO_STREAM stream) w))) /\
  (forall key value ttl,
     set redisConnect redisCommand key value ttl c w
     = Returned (false, c, fst (redisCommand (SET key value ttl) w))) /\
  (forall channel message,
     publish redisConnect redisCommand channel message c w
     = Returned (false, c, fst (redisCommand (PUBLISH channel message) w))).
Proof.
  intros Hc Hnull.
  unfold xadd, xread, xrange, xgroup_create, xreadgroup, xack, xinfo_stream,
    set, publish.
  rewrite !ensure_connected_when_connected by assumption. simpl.
  split_and!; intros;
    match goal with
    | |- context [redisCommand ?args w] =>
        pose proof (Hnull args) as Hn;
        destruct (redisCommand args w) as [w' reply]; simpl in Hn; subst reply;
        reflexivity
    end.
Qed.

End ConnectionFacts.

(** A fresh client facing a server that cannot be reached. *)
Lemma passwordless_operations_always_return_witness :
  password_ (new_RedisClient "localhost" 6379 "") = "" /\
  exists r, xadd unreachable (replies_with None) "vlm:results:stream" ∅
              (new_RedisClient "localhost" 6379 "") tt = Returned r.
Proof.
  split; [reflexivity|].
  exact (proj1 (passwordless_operations_always_return unreachable
                  (replies_with None) (fun _ => 0)
                  (new_RedisClient "localhost" 6379 "") tt eq_refl)
               "vlm:results:stream" ∅).
Defined.

(** An acknowledgement sent over a connection that no longer answers. *)
Lemma broken_connection_goes_unnoticed_witness :
  xack reachable (replies_with None) "vlm:results:stream" "vlm_processors"
       "1700000000000-0" connected_client tt
  = Returned (false, connected_client, tt).
Proof.
  refine (proj1 (proj2 (proj2 (proj2 (proj2 (proj2
    (broken_connection_goes_unnoticed reachable (replies_with None)
       connected_client tt eq_refl _))))))
    "vlm:results:stream" "vlm_processors" "1700000000000-0").
  intros args. reflexivity.
Defined.


(** Property X11.  [connect()] reports the state it leaves behind: on a client whose
    [connected_] flag implies a context (as every client built by the
    constructor and touched only through its member functions), the
    returned value is what [is_connected()] says afterwards; host, port
    and password are untouched, the flag still implies a context, and
    [disconnect()] always ends with [is_connected()] false. *)
Theorem connect_reports_connection {W : Type}
    (redisConnect : string -> Z -> W -> W * redisContext)
    (redisCommand : list string -> W -> W * option redisReply)
    (c c' : RedisClient) (w w' : W) (b : bool) :
  (connected_ c = true -> context_ c = true) ->
  connect redisConnect redisCommand c w = Returned (b, c', w') ->
  is_connected c' = b /\
  (connected_ c' = true -> context_ c' = true) /\
  host_ c' = host_ c /\ port_ c' = port_ c /\ password_ c' = password_ c /\
  is_connected (disconnect c') = false.
Proof.
  intros Hwf. unfold connect, is_connected.
  destruct (connected_ c) eqn:Hconn.
  - intros [= <- <- <-]. rewrite Hconn, (Hwf eq_refl). repeat split.
  - destruct (redisConnect (c_str (host_ c)) (port_ c) w) as [w1 [| |]].
    + intros [= <- <- <-]. simpl. repeat split; discriminate.
    + intros [= <- <- <-]. simpl. repeat split; discriminate.
    + destruct (String.eqb (password_ c) "").
      * intros [= <- <- <-]. repeat split.
      * destruct (redisCommand ["AUTH"; c_str (password_ c)] w1)
          as [w2 [[s|l|n| |s|s]|]];
          intros [= <- <- <-]; simpl; repeat split; discriminate.
Qed.

(** A fresh client with a password, accepted by the server. *)
Lemma connect_reports_connection_witness :
  is_connected (mkRedisClient "localhost" 6379 "secret" true true) = true.
Proof.
  refine (proj1 (connect_reports_connection reachable
                   (replies_with (Some (REDIS_REPLY_STATUS "OK")))
                   (new_RedisClient "localhost" 6379 "secret")
                   (mkRedisClient "localhost" 6379 "secret" true true)
                   tt tt true _ eq_refl)).
  discriminate.
Defined.

(** Property X12.  When the constructor of the stream manager cannot connect, it sends no
    command and leaves the manager disconnected.  The first publish made
    once the server can be reached connects and sends its XADD, and nothing
    else: the consumer groups the constructor would have created are not
    created on this path.  The host name reaches [redisConnect] as a C
    string, and so do the words of the XADD: the response text and the
    model name go out up to their first NUL byte; the timestamp is the
    clock reading taken before the connection attempt. *)
Theorem failed_construction_then_publish {W : Type}
    (redisConnect : string -> Z -> W -> W * redisContext)
    (redisCommand : list string -> W -> W * option redisReply)
    (system_clock_now : W -> Z)
    (host : string) (port : Z) (w w1 : W) (ctx : redisContext) :
  redisConnect (c_str host) port w = (w1, ctx) ->
  ctx <> CtxOk ->
  let mgr := mkManager (new_RedisClient host port "")
               "vlm:results:stream" "vlm:frames:stream"
               "vlm_processors" "deepstream_vlm" in
  new_VLMRedisStreamManager redisConnect redisCommand host port w
    = Returned (mgr, w1) /\
  is_connected (redis_client_ mgr) = false /\
  forall (w2 w3 : W) frame_number source_id response model,
    redisConnect (c_str host) port w2 = (w3, CtxOk) ->
    add_vlm_result redisConnect redisCommand system_clock_now
      frame_number source_id response model mgr w2
    = (let '(w4, reply) :=
         redisCommand
           ["XADD"; "vlm:results:stream"; "*";
            "frame_number"; to_string (to_uint32 frame_number);
            "model_name"; c_str model;
            "source_id"; to_string (to_uint32 source_id);
            "timestamp"; to_string (to_uint64 (system_clock_now w2));
            "type"; "vlm_result";
            "vlm_response"; c_str response] w3 in
       Returned (match reply with
                 | Some (REDIS_REPLY_STRING message_id) => message_id
                 | _ => ""
                 end,
                 set_client mgr (mkRedisClient host port "" true true), w4)).
Proof.
  intros Hconn Hctx mgr. split_and!.
  - unfold new_VLMRedisStreamManager, connect. simpl. rewrite Hconn.
    destruct ctx; try reflexivity. contradiction.
  - reflexivity.
  - intros w2 w3 fn sid response model Hup.
    pose proof (XADD_vlm_result system_clock_now "vlm:results:stream"
                  fn sid response model w2) as Hwords.
    change (c_str "vlm:results:stream") with "vlm:results:stream" in Hwords.
    rewrite <- Hwords.
    unfold add_vlm_result, xadd, ensure_connected, connect. simpl.
    rewrite Hup. simpl.
    destruct (redisCommand _ w3) as [w4 reply]. reflexivity.
Qed.

(** A server that is down ([false]) when the manager is built and up
    ([true]) at the first publish. *)
Lemma failed_construction_then_publish_witness :
  let up_or_down := fun (_ : string) (_ : Z) (up : bool) =>
                      (up, if up then CtxOk else CtxErr) in
  let answer := fun (_ : list string) (up : bool) =>
                  (up, Some (REDIS_REPLY_STRING "1700000000000-0")) in
  new_VLMRedisStreamManager up_or_down answer "localhost" 6379 false
  = Returned (mkManager (new_RedisClient "localhost" 6379 "")
                "vlm:results:stream" "vlm:frames:stream"
                "vlm_processors" "deepstream_vlm", false).
Proof.
  intros up_or_down answer.
  refine (proj1 (failed_construction_then_publish up_or_down answer (fun _ => 0)
                   "localhost" 6379 false false CtxErr eq_refl _)).
  discriminate.
Defined.

(** Property X13.  On a connected manager, [configure_streams] creates the group on the
    two new streams, in that order and starting at id "0", keeps the
    consumer name and the client, and redirects later publishes: the next
    [add_vlm_result] sends its XADD to the new results stream.  The stream
    and group names, the response text and the model name reach the server
    as C strings, each up to its first NUL byte. *)
Theorem configure_streams_redirects {W : Type}
    (redisConnect : string -> Z -> W -> W * redisContext)
    (redisCommand : list string -> W -> W * option redisReply)
    (system_clock_now : W -> Z)
    (vlm_stream frame_stream consumer_group : string)
    (mgr : VLMRedisStreamManager) (w : W) :
  is_connected (redis_client_ mgr) = true ->
  let mgr' := mkManager (redis_client_ mgr) vlm_stream frame_stream
                consumer_group (consumer_name_ mgr) in
  let w1 := fst (redisCommand
                   ["XGROUP"; "CREATE"; c_str vlm_stream; c_str consumer_group;
                    "0"; "MKSTREAM"] w) in
  let w2 := fst (redisCommand
                   ["XGROUP"; "CREATE"; c_str frame_stream; c_str consumer_group;
                    "0"; "MKSTREAM"] w1) in
  configure_streams redisConnect redisCommand vlm_stream frame_stream
    consumer_group mgr w = Returned (mgr', w2) /\
  forall frame_number source_id response model,
    add_vlm_result redisConnect redisCommand system_clock_now
      frame_number source_id response model mgr' w2
    = (let '(w3, reply) :=
         redisCommand
           ["XADD"; c_str vlm_stream; "*";
            "frame_number"; to_string (to_uint32 frame_number);
            "model_name"; c_str model;
            "source_id"; to_string (to_uint32 source_id);
            "timestamp"; to_string (to_uint64 (system_clock_now w2));
            "type"; "vlm_result";
            "vlm_response"; c_str response] w2 in
       Returned (match reply with
                 | Some (REDIS_REPLY_STRING message_id) => message_id
                 | _ => ""
                 end, mgr', w3)).
Proof.
  intros Hc mgr' w1 w2.
  change ["XGROUP"; "CREATE"; c_str vlm_stream; c_str consumer_group; "0"; "MKSTREAM"]
    with (XGROUP_CREATE vlm_stream consumer_group "0") in w1.
  change ["XGROUP"; "CREATE"; c_str frame_stream; c_str consumer_group; "0"; "MKSTREAM"]
    with (XGROUP_CREATE frame_stream consumer_group "0") in w2.
  split.
  - unfold configure_streams, xgroup_create.
    rewrite ensure_connected_when_connected by assumption. simpl.
    subst w2 w1.
    destruct (redisCommand (XGROUP_CREATE vlm_stream consumer_group "0") w)
      as [w1 r1]. simpl.
    rewrite ensure_connected_when_connected by assumption. simpl.
    destruct (redisCommand (XGROUP_CREATE frame_stream consumer_group "0") w1)
      as [w2 r2]. reflexivity.
  - intros fn sid response model.
    rewrite <- (XADD_vlm_result system_clock_now vlm_stream fn sid response model w2).
    unfold add_vlm_result, xadd.
    rewrite ensure_connected_when_connected by assumption. simpl.
    destruct (redisCommand _ w2) as [w3 reply]. reflexivity.
Qed.

(** Renaming the streams of a connected manager on the small server. *)
Lemma configure_streams_redirects_witness :
  let mgr := mkManager connected_client "vlm:results:stream"
               "vlm:frames:stream" "vlm_processors" "deepstream_vlm" in
  configure_streams reachable MiniServer.command "results2" "frames2" "group2"
    mgr (MiniServer.mk [] [] [])
  = Returned (mkManager connected_client "results2" "frames2" "group2"
                "deepstream_vlm",
              MiniServer.mk [("frames2", "group2", "0"); ("results2", "group2", "0")]
                [] []).
Proof.
  intros mgr.
  exact (proj1 (configure_streams_redirects reachable MiniServer.command
                  (fun _ => 0) "results2" "frames2" "group2" mgr
                  (MiniServer.mk [] [] []) eq_refl)).
Defined.

(** ** The worker *)

Section WorkerFacts.
Context {W : Type}.
Variable redisConnect : string -> Z -> W -> W * redisContext.
Variable redisCommand : list string -> W -> W * option redisReply.
Variable system_clock_now : W -> Z.

Abbreviation worker := (gst_dsexample_vlm_worker redisConnect redisCommand system_clock_now).

Lemma add_vlm_result_on_connected frame_number source_id response model mgr (w : W) :
  is_connected (redis_client_ mgr) = true ->
  exists message_id,
    add_vlm_result redisConnect redisCommand system_clock_now
      frame_number source_id response model mgr w
    = Returned (message_id, mgr,
                fst (redisCommand
                       (XADD (vlm_stream_ mgr)
                          (vlm_result_fields system_clock_now frame_number
                             source_id response model w)) w)).
Proof.
  intros Hc. unfold add_vlm_result, xadd.
  rewrite ensure_connected_when_connected by assumption. simpl.
  destruct (redisCommand _ w) as [w' reply]. simpl.
  destruct mgr. eauto.
Qed.

Lemma send_on_connected ds mgr frame (w : W) :
  is_connected (redis_client_ mgr) = true ->
  gst_dsexample_send_to_vlm_service redisConnect redisCommand system_clock_now
    (mkVlmElement ds true (Some mgr)) (Some frame) w
  = Returned (mkVlmElement ds true (Some mgr),
              publish_frame redisCommand system_clock_now (vlm_stream_ mgr) w frame).
Proof.
  intros Hc. unfold gst_dsexample_send_to_vlm_service. simpl.
  destruct (add_vlm_result_on_connected
              (VLMFrameData.frame_number frame) (VLMFrameData.source_id frame)
              vlm_response "deepstream_vlm_v1" mgr w Hc) as (message_id & ->).
  reflexivity.
Qed.

Lemma worker_step ds mgr frame frames processed_count (w : W) (fuel : nat) :
  vlm_thread_running ds = true ->
  is_connected (redis_client_ mgr) = true ->
  worker (S fuel) processed_count
    (mkVlmElement (set_vlm_frame_queue ds (TSQ.mk (frame :: frames) false))
                  true (Some mgr)) w
  = worker fuel (to_uint32 (processed_count + 1))
      (mkVlmElement (set_vlm_frame_queue ds (TSQ.mk frames false)) true (Some mgr))
      (publish_frame redisCommand system_clock_now (vlm_stream_ mgr) w frame).
Proof.
  intros Hrun Hc.
  cbn [gst_dsexample_vlm_worker element set_vlm_frame_queue vlm_thread_running
       vlm_frame_queue redis_enabled vlm_stream_manager].
  rewrite Hrun.
  rewrite (wait_and_pop_live_front _ frame frames) by reflexivity.
  cbn [negb].
  change (set_vlm_frame_queue
            (set_vlm_frame_queue ds (TSQ.mk (frame :: frames) false))
            (TSQ.mk frames false))
    with (set_vlm_frame_queue ds (TSQ.mk frames false)).
  rewrite send_on_connected by assumption. reflexivity.
Qed.

(** Property X6.  A worker that finds [frames] queued on a live queue, with a connected
    manager and no other thread interfering, publishes one record per
    frame in queue order, counts them, and is then suspended in
    [wait_and_pop()] on the empty queue; [length frames + 1] loop
    iterations suffice. *)
Theorem worker_publishes_in_queue_order (ds : GstDsExample)
    (mgr : VLMRedisStreamManager) (frames : list VLMFrameData.t)
    (processed_count : Z) (w : W) (extra : nat) :
  vlm_thread_running ds = true ->
  is_connected (redis_client_ mgr) = true ->
  0 <= processed_count < 2 ^ 32 ->
  worker (S (length frames) + extra) processed_count
    (mkVlmElement (set_vlm_frame_queue ds (TSQ.mk frames false)) true (Some mgr)) w
  = WorkerWaiting
      (to_uint32 (processed_count + Z.of_nat (length frames)))
      (mkVlmElement (set_vlm_frame_queue ds (TSQ.mk [] false)) true (Some mgr))
      (fold_left (publish_frame redisCommand system_clock_now (vlm_stream_ mgr))
                 frames w).
Proof.
  intros Hrun Hc. revert processed_count w.
  induction frames as [|frame frames IH]; intros processed_count w Hcount.
  - simpl. rewrite Hrun. rewrite Z.add_0_r, to_uint32_small by assumption.
    reflexivity.
  - change (S (length (frame :: frames)) + extra)%nat
      with (S (S (length frames) + extra)).
    rewrite worker_step by assumption.
    rewrite IH by (unfold to_uint32; apply Z.mod_pos_bound; lia).
    cbn [fold_left]. f_equal. unfold to_uint32.
    rewrite Zplus_mod_idemp_l. f_equal. simpl length. lia.
Qed.

Lemma worker_leaves_when_stopped (el : VlmElement) (fuel : nat)
    (processed_count : Z) (w : W) :
  vlm_thread_running (element el) = false \/
  TSQ.is_terminated_ (vlm_frame_queue (element el)) = true ->
  worker (S fuel) processed_count el w = WorkerExited processed_count el w.
Proof.
  intros H. cbn [gst_dsexample_vlm_worker].
  destruct (vlm_thread_running (element el)) eqn:Hrun; [|reflexivity].
  destruct H as [H|H]; [discriminate|].
  rewrite (wait_and_pop_terminated _ H).
  destruct el as [[] ? ?]. reflexivity.
Qed.

(** Property X7.  [gst_dsexample_stop] on a running element clears the flag and
    terminates the queue without touching the queued frames, and is
    idempotent; the worker then leaves its loop at once, whether it
    re-reads the flag or had already passed that test, and publishes none
    of the frames still queued. *)
Theorem stop_abandons_queued_frames (ds : GstDsExample) (r : bool)
    (m : option VLMRedisStreamManager) (fuel : nat) (processed_count : Z) (w : W) :
  vlm_enabled ds = true ->
  vlm_thread_running ds = true ->
  let ds' := gst_dsexample_stop ds in
  vlm_thread_running ds' = false /\
  TSQ.is_terminated_ (vlm_frame_queue ds') = true /\
  TSQ.data_queue_ (vlm_frame_queue ds') = TSQ.data_queue_ (vlm_frame_queue ds) /\
  gst_dsexample_stop ds' = ds' /\
  worker (S fuel) processed_count (mkVlmElement ds' r m) w
    = WorkerExited processed_count (mkVlmElement ds' r m) w /\
  worker (S fuel) processed_count
    (mkVlmElement (set_vlm_thread_running ds' true) r m) w
    = WorkerExited processed_count
        (mkVlmElement (set_vlm_thread_running ds' true) r m) w.
Proof.
  intros He Hr ds'. subst ds'. unfold gst_dsexample_stop. rewrite He, Hr.
  cbn [andb]. split_and!; try reflexivity.
  - cbn [set_vlm_frame_queue set_vlm_thread_running vlm_enabled
         vlm_thread_running]. rewrite ?He, ?andb_false_r. reflexivity.
  - apply worker_leaves_when_stopped. right. reflexivity.
Qed.
End WorkerFacts.

(** Two queued frames, a connected manager, a server that answers. *)
Lemma worker_publishes_in_queue_order_witness :
  let ds := set_vlm_thread_running gst_dsexample_init true in
  let mgr := mkManager connected_client "vlm:results:stream"
               "vlm:frames:stream" "vlm_processors" "deepstream_vlm" in
  let frames := [make_vlm_frame (NvDsFrameMeta.mk 0 0 30);
                 make_vlm_frame (NvDsFrameMeta.mk 0 1 30)] in
  gst_dsexample_vlm_worker reachable
    (replies_with (Some (REDIS_REPLY_STRING "1700000000000-0"))) (fun _ => 0)
    3 0 (mkVlmElement (set_vlm_frame_queue ds (TSQ.mk frames false)) true (Some mgr)) tt
  = WorkerWaiting 2
      (mkVlmElement (set_vlm_frame_queue ds (TSQ.mk [] false)) true (Some mgr)) tt.
Proof.
  intros ds mgr frames.
  refine (worker_publishes_in_queue_order reachable
            (replies_with (Some (REDIS_REPLY_STRING "1700000000000-0")))
            (fun _ => 0) ds mgr frames 0 tt 0 eq_refl eq_refl _).
  lia.
Defined.

(** Stopping a running element that still holds a frame. *)
Lemma stop_abandons_queued_frames_witness :
  let ds := set_vlm_frame_queue (set_vlm_thread_running gst_dsexample_init true)
              (TSQ.mk [make_vlm_frame (NvDsFrameMeta.mk 0 0 30)] false) in
  TSQ.data_queue_ (vlm_frame_queue (gst_dsexample_stop ds))
  = [make_vlm_frame (NvDsFrameMeta.mk 0 0 30)].
Proof.
  intros ds.
  exact (proj1 (proj2 (proj2
           (stop_abandons_queued_frames unreachable (replies_with None) (fun _ => 0)
              ds true None 0 0 tt eq_refl eq_refl)))).
Defined.

Lemma process_batches_keeps_flags bufs ds :
  vlm_thread_running (process_batches ds bufs) = vlm_thread_running ds /\
  TSQ.is_terminated_ (vlm_frame_queue (process_batches ds bufs))
    = TSQ.is_terminated_ (vlm_frame_queue ds).
Proof.
  induction bufs as [|b bufs IH] using rev_ind.
  - split; reflexivity.
  - destruct IH as (Hr & Ht). rewrite process_batches_snoc.
    destruct (transform_ip_counters (process_batches ds bufs) b)
      as (_ & _ & Hr2 & Ht2 & _).
    cbv zeta in *. rewrite Hr2, Ht2. split; assumption.
Qed.

(** Property X8.  Nothing ever clears the queue's terminated flag: when an element that
    was stopped is started again, the flag [vlm_thread_running] is set and
    frames are sampled into the queue as before, but the new worker gets
    [nullptr] from its first [wait_and_pop()] and leaves without
    publishing, however many buffers have been processed since. *)
Theorem restart_after_stop_never_publishes {W : Type}
    (redisConnect : string -> Z -> W -> W * redisContext)
    (redisCommand : list string -> W -> W * option redisReply)
    (system_clock_now : W -> Z)
    (ds : GstDsExample) (bufs : list GstBuffer)
    (r : bool) (m : option VLMRedisStreamManager)
    (fuel : nat) (processed_count : Z) (w : W) :
  vlm_enabled ds = true ->
  vlm_thread_running ds = true ->
  let restarted := gst_dsexample_start true (gst_dsexample_stop ds) in
  let ds' := process_batches (snd restarted) bufs in
  fst restarted = true /\
  vlm_thread_running ds' = true /\
  TSQ.is_terminated_ (vlm_frame_queue ds') = true /\
  gst_dsexample_vlm_worker redisConnect redisCommand system_clock_now
    (S fuel) processed_count (mkVlmElement ds' r m) w
  = WorkerExited processed_count (mkVlmElement ds' r m) w.
Proof.
  intros He Hr restarted ds'.
  assert (vlm_thread_running (snd restarted) = true /\
          TSQ.is_terminated_ (vlm_frame_queue (snd restarted)) = true) as [Hr1 Ht1].
  { subst restarted. unfold gst_dsexample_start, gst_dsexample_stop.
    rewrite He, Hr. cbn. rewrite He. split; reflexivity. }
  destruct (process_batches_keeps_flags bufs (snd restarted)) as [Hr2 Ht2].
  fold ds' in Hr2, Ht2. rewrite Hr1 in Hr2. rewrite Ht1 in Ht2.
  split_and!; try assumption.
  - reflexivity.
  - apply worker_leaves_when_stopped. right. exact Ht2.
Qed.

(** The default element, started, stopped, started again and fed sixty
    two-source batches. *)
Lemma restart_after_stop_never_publishes_witness :
  let batch := mkBuffer true true true
                 (Some [NvDsFrameMeta.mk 0 0 1; NvDsFrameMeta.mk 0 1 1]) in
  let ds := snd (gst_dsexample_start true gst_dsexample_init) in
  let ds' := process_batches
               (snd (gst_dsexample_start true (gst_dsexample_stop ds)))
               (replicate 60 batch) in
  length (TSQ.data_queue_ (vlm_frame_queue ds')) = 4%nat /\
  gst_dsexample_vlm_worker reachable
    (replies_with (Some (REDIS_REPLY_STRING "1700000000000-0"))) (fun _ => 0)
    5 0 (mkVlmElement ds' true None) tt
  = WorkerExited 0 (mkVlmElement ds' true None) tt.
Proof.
  intros batch ds ds'. split; [vm_compute; reflexivity|].
  exact (proj2 (proj2 (proj2
           (restart_after_stop_never_publishes reachable
              (replies_with (Some (REDIS_REPLY_STRING "1700000000000-0")))
              (fun _ => 0) ds (replicate 60 batch) true None 4 0 tt
              eq_refl eq_refl)))).
Defined.

(** ** Reading back what was written: numbers, ids, fields *)

Lemma read_digits_step a rest acc cnt k :
  digit_value a = Some k ->
  read_digits (String a rest) acc cnt = read_digits rest (10 * acc + k) (S cnt).
Proof. intros H. cbn [read_digits]. now rewrite H. Qed.

Ltac read_digit k :=
  cbn [NilEmpty.string_of_uint Pos.of_uint_acc Pos.of_uint Decimal.nb_digits];
  rewrite (read_digits_step _ _ _ _ k) by reflexivity.

Ltac next_digit IH d p cnt :=
  transitivity (read_digits (NilEmpty.string_of_uint d) (Z.pos p) (S cnt));
  [f_equal; lia | rewrite IH; f_equal; lia].

Lemma read_decimal_acc d : forall acc cnt,
  read_digits (NilEmpty.string_of_uint d) (Z.pos acc) cnt
  = (Z.pos (Pos.of_uint_acc d acc), (cnt + Decimal.nb_digits d)%nat).
Proof.
  induction d as [|d IH|d IH|d IH|d IH|d IH|d IH|d IH|d IH|d IH|d IH]; intros acc cnt.
  - cbn. now rewrite Nat.add_0_r.
  - read_digit 0. next_digit IH d (10 * acc)%positive cnt.
  - read_digit 1. next_digit IH d (1 + 10 * acc)%positive cnt.
  - read_digit 2. next_digit IH d (2 + 10 * acc)%positive cnt.
  - read_digit 3. next_digit IH d (3 + 10 * acc)%positive cnt.
  - read_digit 4. next_digit IH d (4 + 10 * acc)%positive cnt.
  - read_digit 5. next_digit IH d (5 + 10 * acc)%positive cnt.
  - read_digit 6. next_digit IH d (6 + 10 * acc)%positive cnt.
  - read_digit 7. next_digit IH d (7 + 10 * acc)%positive cnt.
  - read_digit 8. next_digit IH d (8 + 10 * acc)%positive cnt.
  - read_digit 9. next_digit IH d (9 + 10 * acc)%positive cnt.
Qed.

Ltac first_digit d p cnt :=
  transitivity (read_digits (NilEmpty.string_of_uint d) (Z.pos p) (S cnt));
  [f_equal | rewrite read_decimal_acc; f_equal; lia].

Lemma read_decimal d : forall cnt,
  read_digits (NilEmpty.string_of_uint d) 0 cnt
  = (Z.of_N (Pos.of_uint d), (cnt + Decimal.nb_digits d)%nat).
Proof.
  induction d as [|d IH|d IH|d IH|d IH|d IH|d IH|d IH|d IH|d IH|d IH]; intros cnt.
  - cbn. now rewrite Nat.add_0_r.
  - read_digit 0. change (10 * 0 + 0) with 0. rewrite IH. f_equal. lia.
  - read_digit 1. first_digit d 1%positive cnt.
  - read_digit 2. first_digit d 2%positive cnt.
  - read_digit 3. first_digit d 3%positive cnt.
  - read_digit 4. first_digit d 4%positive cnt.
  - read_digit 5. first_digit d 5%positive cnt.
  - read_digit 6. first_digit d 6%positive cnt.
  - read_digit 7. first_digit d 7%positive cnt.
  - read_digit 8. first_digit d 8%positive cnt.
  - read_digit 9. first_digit d 9%positive cnt.
Qed.

(** Neither white space nor a sign is read in front of a decimal numeral. *)
Lemma stoull_digits d :
  d <> Decimal.Nil ->
  stoull (NilEmpty.string_of_uint d)
  = (let v := Z.of_N (Pos.of_uint d) in
     if 2 ^ 64 <=? v then Thrown out_of_range else Returned v).
Proof.
  intros Hd. unfold stoull.
  assert (skip_spaces (NilEmpty.string_of_uint d) = NilEmpty.string_of_uint d) as ->
    by (destruct d; reflexivity).
  assert ((let '(negative, s2) :=
            match NilEmpty.string_of_uint d with
            | String "-" rest => (true, rest)
            | String "+" rest => (false, rest)
            | _ => (false, NilEmpty.string_of_uint d)
            end in
          match read_digits s2 0 0 with
          | (_, O) => Thrown invalid_argument
          | (v, S _) =>
              if 2 ^ 64 <=? v then Thrown out_of_range
              else Returned (if negative then to_uint64 (- v) else v)
          end)
          = match read_digits (NilEmpty.string_of_uint d) 0 0 with
          | (_, O) => Thrown invalid_argument
          | (v, S _) =>
              if 2 ^ 64 <=? v then Thrown out_of_range
              else Returned v
          end) as Hs by (destruct d; reflexivity).
  etransitivity; [exact Hs|]. clear Hs.
  rewrite read_decimal.
  destruct d; try contradiction; reflexivity.
Qed.

Lemma stoull_to_string n : 0 <= n < 2 ^ 64 -> stoull (to_string n) = Returned n.
Proof.
  intros Hn. rewrite to_string_digits, stoull_digits by apply to_uint_nonnil.
  change (Pos.of_uint (N.to_uint (Z.to_N n))) with (N.of_uint (N.to_uint (Z.to_N n))).
  rewrite DecimalN.Unsigned.of_to. cbv zeta. rewrite Z2N.id by lia.
  destruct (Z.leb_spec (2 ^ 64) n); [lia|reflexivity].
Qed.



Lemma find_dash_after_digits d rest :
  find_char "-" (NilEmpty.string_of_uint d +:+ String "-" rest)
  = Some (String.length (NilEmpty.string_of_uint d)).
Proof.
  induction d; simpl; try (rewrite IHd); reflexivity.
Qed.

Lemma substring_prefix s t : substring 0 (String.length s) (s +:+ t) = s.
Proof.
  induction s as [|a s IH]; simpl.
  - now destruct t.
  - now rewrite IH.
Qed.

Lemma to_string_nonempty n : String.eqb (to_string n +:+ "-") "" = false
  /\ forall rest, String.eqb (to_string n +:+ String "-" rest) "" = false.
Proof.
  rewrite to_string_digits.
  pose proof (to_uint_nonnil (Z.to_N n)) as H.
  destruct (N.to_uint (Z.to_N n)); try contradiction; split; reflexivity.
Qed.

Lemma parse_entry ms seq fs extra :
  0 <= ms < 2 ^ 64 ->
  parse_stream_message
    (Some (REDIS_REPLY_ARRAY
             (REDIS_REPLY_STRING (entry_id ms seq) :: REDIS_REPLY_ARRAY fs :: extra)))
  = Returned (mkStreamMessage (entry_id ms seq) (fill_fields fs ∅) ms).
Proof.
  intros Hms. unfold parse_stream_message, entry_id.
  rewrite to_string_digits, find_dash_after_digits, substring_prefix.
  rewrite <- to_string_digits, stoull_to_string by assumption. reflexivity.
Qed.

(** Property X14.  An entry whose id has the server's form [<ms>-<seq>], with [ms] a
    64-bit number, is parsed without exception: the message carries the id,
    the fields of the flat field array, and [ms] as its timestamp.  The
    [StreamMessage] constructor reads the same timestamp from such an id,
    in particular from the ids [get_vlm_results_range] builds. *)
Theorem well_formed_id_is_parsed (ms : Z) (seq : string)
    (fs extra : list redisReply) (data : gmap string string) :
  0 <= ms < 2 ^ 64 ->
  parse_stream_message
    (Some (REDIS_REPLY_ARRAY
             (REDIS_REPLY_STRING (entry_id ms seq) :: REDIS_REPLY_ARRAY fs :: extra)))
  = Returned (mkStreamMessage (entry_id ms seq) (fill_fields fs ∅) ms) /\
  new_StreamMessage (entry_id ms seq) data
  = Returned (mkStreamMessage (entry_id ms seq) data ms) /\
  new_StreamMessage (to_string ms +:+ "-0") data
  = Returned (mkStreamMessage (to_string ms +:+ "-0") data ms).
Proof.
  intros Hms.
  assert (forall seq0, new_StreamMessage (entry_id ms seq0) data
            = Returned (mkStreamMessage (entry_id ms seq0) data ms)) as Hnew.
  { intros seq0. unfold new_StreamMessage, entry_id.
    rewrite to_string_digits, find_dash_after_digits, substring_prefix.
    rewrite <- to_string_digits, stoull_to_string by assumption. reflexivity. }
  split_and!.
  - now apply parse_entry.
  - apply Hnew.
  - apply (Hnew "0").
Qed.

(** An id as the server assigns it. *)
Lemma well_formed_id_is_parsed_witness :
  parse_stream_message
    (Some (REDIS_REPLY_ARRAY
             [REDIS_REPLY_STRING (entry_id 1700000000000 "3");
              REDIS_REPLY_ARRAY [REDIS_REPLY_STRING "a"; REDIS_REPLY_STRING "1"]]))
  = Returned (mkStreamMessage (entry_id 1700000000000 "3")
                (fill_fields [REDIS_REPLY_STRING "a"; REDIS_REPLY_STRING "1"] ∅)
                1700000000000).
Proof.
  refine (proj1 (well_formed_id_is_parsed 1700000000000 "3"
                   [REDIS_REPLY_STRING "a"; REDIS_REPLY_STRING "1"] [] ∅ _)).
  lia.
Defined.

Lemma entry_id_nonempty ms seq : String.eqb (entry_id ms seq) "" = false.
Proof. unfold entry_id. apply to_string_nonempty. Qed.

Lemma parse_messages_cons e rest messages msg :
  parse_stream_message (Some e) = Returned msg ->
  parse_messages (e :: rest) messages
  = parse_messages rest
      (if String.eqb (id msg) "" then messages else messages ++ [msg]).
Proof. intros H. cbn [parse_messages]. rewrite H. reflexivity. Qed.

Lemma parse_messages_well_formed (es : list (Z * string * list redisReply)) :
  Forall (fun e => 0 <= e.1.1 < 2 ^ 64) es ->
  forall messages,
    parse_messages (stream_entry <$> es) messages
    = Returned (messages ++ (entry_message <$> es)).
Proof.
  induction 1 as [|[[ms seq] fs] es Hms _ IH]; intros messages.
  - simpl. now rewrite app_nil_r.
  - rewrite fmap_cons.
    rewrite (parse_messages_cons _ _ _ (entry_message (ms, seq, fs)))
      by (apply parse_entry; exact Hms).
    cbn [entry_message id fst snd]. rewrite entry_id_nonempty.
    rewrite IH, <- app_assoc. reflexivity.
Qed.

(** Property X15.  A reply all of whose entries have well-formed ids comes back complete
    and in order, from [xrange]'s parser and, inside one stream's block,
    from [xread]'s. *)
Theorem well_formed_reply_is_returned_whole
    (es : list (Z * string * list redisReply)) (stream : string) :
  Forall (fun e => 0 <= e.1.1 < 2 ^ 64) es ->
  parse_xrange_reply (Some (REDIS_REPLY_ARRAY (stream_entry <$> es)))
  = Returned (entry_message <$> es) /\
  parse_xread_reply
    (Some (REDIS_REPLY_ARRAY
             [REDIS_REPLY_ARRAY [REDIS_REPLY_STRING stream;
                                 REDIS_REPLY_ARRAY (stream_entry <$> es)]]))
  = Returned (entry_message <$> es).
Proof.
  intros Hes. split.
  - unfold parse_xrange_reply. now rewrite parse_messages_well_formed.
  - unfold parse_xread_reply. cbn [parse_streams].
    rewrite parse_messages_well_formed by assumption. reflexivity.
Qed.

(** Two entries of one stream. *)
Lemma well_formed_reply_is_returned_whole_witness :
  parse_xrange_reply
    (Some (REDIS_REPLY_ARRAY
             (stream_entry <$> [(1700000000000, "0", []); (1700000000001, "0", [])])))
  = Returned (entry_message <$> [(1700000000000, "0", []); (1700000000001, "0", [])]).
Proof.
  refine (proj1 (well_formed_reply_is_returned_whole
                   [(1700000000000, "0", []); (1700000000001, "0", [])] "s" _)).
  repeat constructor; simpl; lia.
Defined.

Lemma fill_fields_pairs (kvs : list (string * string)) (m0 : gmap string string) :
  fill_fields (REDIS_REPLY_STRING <$> flatten_pairs kvs) m0
  = foldl (fun m kv => <[kv.1 := kv.2]> m) m0 kvs.
Proof.
  revert m0. induction kvs as [|[k v] kvs IH]; intros m0.
  - reflexivity.
  - cbn [flatten_pairs flat_map app fmap list_fmap fill_fields reply_str foldl fst snd].
    apply IH.
Qed.

(** The same for words that went through [c_str]. *)
Lemma fill_fields_c_str_pairs (kvs : list (string * string)) (m0 : gmap string string) :
  fill_fields (REDIS_REPLY_STRING <$> (c_str <$> flatten_pairs kvs)) m0
  = foldl (fun m kv => <[c_str kv.1 := c_str kv.2]> m) m0 kvs.
Proof.
  revert m0. induction kvs as [|[k v] kvs IH]; intros m0.
  - reflexivity.
  - cbn [flatten_pairs flat_map app fmap list_fmap fill_fields reply_str foldl fst snd].
    apply IH.
Qed.

Lemma c_str_flatten_pairs (kvs : list (string * string)) :
  Forall (fun kv => find_char "000" kv.1 = None /\ find_char "000" kv.2 = None) kvs ->
  c_str <$> flatten_pairs kvs = flatten_pairs kvs.
Proof.
  induction 1 as [|[k v] kvs [Hk Hv] _ IH]; [reflexivity|].
  cbn [flatten_pairs flat_map app fmap list_fmap fst snd] in *.
  rewrite (c_str_without_nul k Hk), (c_str_without_nul v Hv). f_equal. f_equal.
  exact IH.
Qed.

Lemma foldl_insert_is_list_to_map (kvs : list (string * string)) :
  NoDup (kvs.*1) ->
  foldl (fun m kv => <[kv.1 := kv.2]> m) (∅ : gmap string string) kvs
  = list_to_map kvs.
Proof.
  induction kvs as [|[k v] kvs IH] using rev_ind; intros Hnd.
  - reflexivity.
  - rewrite fmap_app in Hnd. apply NoDup_app in Hnd as (Hnd & Hfresh & _).
    rewrite foldl_app. cbn [foldl fst snd]. rewrite IH by assumption.
    rewrite list_to_map_snoc; [reflexivity|].
    intros Hin. apply (Hfresh k Hin). simpl. left.
Qed.

Lemma in_key_order_to_map (m : gmap string string) :
  list_to_map (in_key_order m) = m.
Proof.
  unfold in_key_order.
  rewrite (list_to_map_proper (merge_sort key_le (map_to_list m)) (map_to_list m)).
  - apply list_to_map_to_list.
  - rewrite merge_sort_Permutation. apply NoDup_fst_map_to_list.
  - apply merge_sort_Permutation.
Qed.

Lemma in_key_order_Forall (P : string -> string -> Prop) (m : gmap string string) :
  map_Forall P m -> Forall (fun kv => P kv.1 kv.2) (in_key_order m).
Proof.
  intros HP. apply Forall_forall. intros [k v] Hin. simpl.
  apply (HP k v). apply elem_of_map_to_list.
  unfold in_key_order in Hin.
  now rewrite merge_sort_Permutation in Hin.
Qed.

(** Property X16.  The words [xadd] sends are the fields of the map in key order, each
    cut at its first NUL byte.  Handed back by the server as the flat field
    array of an entry, they are parsed into the map obtained by inserting
    the cut keys with the cut values in that order; when no key and no
    value of the map holds a NUL byte this is the map that was sent, and
    with a well-formed id the whole entry parses to the message carrying
    that map. *)
Theorem published_fields_read_back (m : gmap string string) (stream : string)
    (ms : Z) (seq : string) :
  0 <= ms < 2 ^ 64 ->
  XADD stream m = ["XADD"; c_str stream; "*"] ++ (reply_str <$> field_replies m) /\
  fill_fields (field_replies m) ∅
  = foldl (fun acc kv => <[c_str kv.1 := c_str kv.2]> acc) ∅ (in_key_order m) /\
  parse_stream_message (Some (stream_entry (ms, seq, field_replies m)))
  = Returned (mkStreamMessage (entry_id ms seq)
                (fill_fields (field_replies m) ∅) ms) /\
  (map_Forall (fun k v => find_char "000" k = None /\ find_char "000" v = None) m ->
   fill_fields (field_replies m) ∅ = m /\
   parse_stream_message (Some (stream_entry (ms, seq, field_replies m)))
   = Returned (mkStreamMessage (entry_id ms seq) m ms)).
Proof.
  intros Hms.
  assert (parse_stream_message (Some (stream_entry (ms, seq, field_replies m)))
          = Returned (mkStreamMessage (entry_id ms seq)
                        (fill_fields (field_replies m) ∅) ms)) as Hparse.
  { unfold stream_entry. cbn [fst snd]. now rewrite parse_entry by assumption. }
  split_and!.
  - unfold XADD, field_replies. rewrite fmap_app. f_equal.
    rewrite <- list_fmap_compose. symmetry. apply list_fmap_id.
  - unfold field_replies. apply fill_fields_c_str_pairs.
  - exact Hparse.
  - intros Hnul.
    assert (fill_fields (field_replies m) ∅ = m) as Hfill.
    { unfold field_replies.
      rewrite c_str_flatten_pairs
        by exact (in_key_order_Forall
                    (fun k v => find_char "000" k = None /\ find_char "000" v = None)
                    m Hnul).
      rewrite fill_fields_pairs, foldl_insert_is_list_to_map.
      - apply in_key_order_to_map.
      - unfold in_key_order. rewrite merge_sort_Permutation.
        apply NoDup_fst_map_to_list. }
    split; [exact Hfill|]. now rewrite Hparse, Hfill.
Qed.

(** The record of the usage example, echoed by the server. *)
Lemma published_fields_read_back_witness :
  let m := vlm_result_fields (fun _ : unit => 1700000000123) 123 0
             "Car on highway" "default" tt in
  0 <= 1700000000123 < 2 ^ 64 /\
  fill_fields (field_replies m) ∅ = m.
Proof.
  intros m. split; [lia|].
  refine (proj1 (proj2 (proj2 (proj2 (published_fields_read_back m "vlm:results:stream"
                                        1700000000123 "0" _))) _)).
  - lia.
  - apply map_Forall_to_list. vm_compute. repeat constructor.
Defined.

(** Two keys that differ only after a NUL byte go out as the same word:
    the entry read back has one field, with the value of the key that
    comes last in key order. *)
Example keys_collide_after_nul :
  let key_b := "a" +:+ String "000" "b" in
  let key_c := "a" +:+ String "000" "c" in
  let m : gmap string string := <[key_b := "1"]> (<[key_c := "2"]> ∅) in
  XADD "s" m = ["XADD"; "s"; "*"; "a"; "1"; "a"; "2"] /\
  fill_fields (field_replies m) ∅ = <["a" := "2"]> ∅ /\
  fill_fields (field_replies m) ∅ <> m.
Proof.
  vm_compute. split_and!; [reflexivity|reflexivity|discriminate].
Qed.


(** ** Filtering by source *)

Lemma filter_by_source_spec (source_id count : Z) (messages : list StreamMessage) :
  forall filtered result,
    filter_by_source source_id count messages filtered = Returned result ->
    exists added,
      result = filtered ++ added /\
      added `sublist_of` messages /\
      Forall (fun m => get_field_as_uint32 m "source_id" 0 = Returned source_id) added /\
      Z.of_nat (length result)
        <= Z.max (to_uint64 count) (Z.of_nat (length filtered) + 1).
Proof.
  induction messages as [|msg rest IH]; intros filtered result Hres.
  - injection Hres as <-. exists []. rewrite app_nil_r.
    split_and!; [reflexivity|constructor|constructor|lia].
  - cbn [filter_by_source] in Hres.
    destruct (get_field_as_uint32 msg "source_id" 0) as [sid| |] eqn:Hsid;
      try discriminate.
    cbn [mbind outcome_bind] in Hres.
    destruct (Z.eqb_spec sid source_id) as [->|Hne].
    + destruct (Z.leb_spec (to_uint64 count)
                  (Z.of_nat (length (filtered ++ [msg])))) as [Hfull|Hroom].
      * injection Hres as <-. exists [msg]. split_and!.
        -- reflexivity.
        -- constructor. apply sublist_nil_l.
        -- repeat constructor. exact Hsid.
        -- rewrite length_app in *. simpl in *. lia.
      * destruct (IH _ _ Hres) as (added & -> & Hsub & Hall & Hlen).
        exists (msg :: added). split_and!.
        -- now rewrite <- app_assoc.
        -- now constructor.
        -- constructor; assumption.
        -- rewrite !length_app in *. simpl in *. lia.
    + destruct (IH _ _ Hres) as (added & -> & Hsub & Hall & Hlen).
      exists added.
      split_and!; [reflexivity|now constructor|assumption|lia].
Qed.

(** Property X18.  Whenever [get_vlm_results_by_source] returns, its result is a
    subsequence, in stream order, of what [xrange] on the whole results
    stream with limit [2 * count] returned; every message in it has a
    "source_id" field that reads as the requested id (a message without
    the field reads as source 0); and it holds at most [count] messages
    for [count >= 1], but up to one message for [count = 0]. *)
Theorem results_by_source_are_filtered {W : Type}
    (redisConnect : string -> Z -> W -> W * redisContext)
    (redisCommand : list string -> W -> W * option redisReply)
    (source_id count : Z) (mgr mgr' : VLMRedisStreamManager) (w w' : W)
    (msgs : list StreamMessage) :
  0 <= source_id < 2 ^ 32 ->
  0 <= count < 2 ^ 30 ->
  get_vlm_results_by_source redisConnect redisCommand source_id count mgr w
    = Returned (msgs, mgr', w') ->
  exists all,
    xrange redisConnect redisCommand (vlm_stream_ mgr) "-" "+" (count * 2)
      (redis_client_ mgr) w = Returned (all, redis_client_ mgr', w') /\
    msgs `sublist_of` all /\
    Forall (fun m => get_field_as_uint32 m "source_id" 0 = Returned source_id) msgs /\
    Z.of_nat (length msgs) <= Z.max count 1.
Proof.
  intros Hsid Hcount. unfold get_vlm_results_by_source.
  destruct (xrange _ _ _ _ _ _ _ w) as [[[all c1] w1]| |] eqn:Hx; try discriminate.
  cbn [mbind outcome_bind].
  destruct (filter_by_source (to_uint32 source_id) count all [])
    as [filtered| |] eqn:Hf; try discriminate.
  cbn [mbind outcome_bind]. intros [= <- <- <-].
  exists all. split; [reflexivity|].
  destruct (filter_by_source_spec _ _ _ _ _ Hf) as (added & Hres & Hsub & Hall & Hlen).
  simpl in Hres. subst added.
  rewrite to_uint32_small in Hall by assumption.
  rewrite to_uint64_small in Hlen by lia. simpl in Hlen.
  split_and!; assumption.
Qed.

(** Three entries, two of them from source 1, asked for with
    [count = 1]. *)
Lemma results_by_source_are_filtered_witness :
  let source n := [REDIS_REPLY_STRING "source_id"; REDIS_REPLY_STRING n] in
  let reply := Some (REDIS_REPLY_ARRAY
                       (stream_entry <$> [(5, "0", source "1"); (6, "0", source "0");
                                          (7, "0", source "1")])) in
  let mgr := mkManager connected_client "vlm:results:stream"
               "vlm:frames:stream" "vlm_processors" "deepstream_vlm" in
  get_vlm_results_by_source reachable (replies_with reply) 1 1 mgr tt
    = Returned ([entry_message (5, "0", source "1")], mgr, tt) /\
  Z.of_nat (length [entry_message (5, "0", source "1")]) <= Z.max 1 1.
Proof.
  intros source reply mgr.
  assert (get_vlm_results_by_source reachable (replies_with reply) 1 1 mgr tt
          = Returned ([entry_message (5, "0", source "1")], mgr, tt)) as Hrun
    by (vm_compute; reflexivity).
  split; [exact Hrun|].
  destruct (results_by_source_are_filtered reachable (replies_with reply) 1 1
              mgr mgr tt tt [entry_message (5, "0", source "1")]
              ltac:(lia) ltac:(lia) Hrun) as (all & _ & _ & _ & Hlen).
  exact Hlen.
Defined.

(** ** Frame metadata *)

(** Property X19.  [add_frame_metadata] builds a record of exactly seven fields, the
    caller's five values, the host's clock reading and the type tag
    "frame_metadata", and on a connected manager sends it in one XADD to
    the frame stream (not the results stream), returning the id of the
    server's string reply and the empty string for any other reply.  The
    words go out in key order and as C strings: the stream name and the
    format text end at their first NUL byte. *)
Theorem add_frame_metadata_record {W : Type}
    (redisConnect : string -> Z -> W -> W * redisContext)
    (redisCommand : list string -> W -> W * option redisReply)
    (system_clock_now : W -> Z)
    (frame_number source_id width height : Z) (format : string)
    (mgr : VLMRedisStreamManager) (w : W) :
  is_connected (redis_client_ mgr) = true ->
  let fs := frame_metadata_fields system_clock_now frame_number source_id
              width height format w in
  fs !! "frame_number" = Some (to_string (to_uint32 frame_number)) /\
  fs !! "source_id" = Some (to_string (to_uint32 source_id)) /\
  fs !! "width" = Some (to_string (to_uint32 width)) /\
  fs !! "height" = Some (to_string (to_uint32 height)) /\
  fs !! "format" = Some format /\
  fs !! "timestamp" = Some (to_string (to_uint64 (system_clock_now w))) /\
  fs !! "type" = Some "frame_metadata" /\
  dom fs = ({["frame_number"; "source_id"; "width"; "height"; "format";
              "timestamp"; "type"]} : gset string) /\
  add_frame_metadata redisConnect redisCommand system_clock_now
    frame_number source_id width height format mgr w
  = (let '(w', reply) :=
       redisCommand
         ["XADD"; c_str (frame_stream_ mgr); "*";
          "format"; c_str format;
          "frame_number"; to_string (to_uint32 frame_number);
          "height"; to_string (to_uint32 height);
          "source_id"; to_string (to_uint32 source_id);
          "timestamp"; to_string (to_uint64 (system_clock_now w));
          "type"; "frame_metadata";
          "width"; to_string (to_uint32 width)] w in
     Returned (match reply with
               | Some (REDIS_REPLY_STRING message_id) => message_id
               | _ => ""
               end, mgr, w')).
Proof.
  intros Hc fs.
  split_and!; try reflexivity.
  rewrite <- (XADD_frame_metadata system_clock_now (frame_stream_ mgr)
                frame_number source_id width height format w).
  unfold add_frame_metadata, xadd.
  rewrite ensure_connected_when_connected by assumption.
  simpl.
  destruct (redisCommand _ w) as [w' reply]. simpl.
  destruct mgr. reflexivity.
Qed.

(** Metadata of one 1920x1080 NV12 frame. *)
Lemma add_frame_metadata_record_witness :
  is_connected (redis_client_
                  (mkManager connected_client "vlm:results:stream"
                     "vlm:frames:stream" "vlm_processors" "deepstream_vlm")) = true /\
  frame_metadata_fields (fun _ : unit => 1700000000123) 30 0 1920 1080 "NV12" tt
    !! "type" = Some "frame_metadata".
Proof.
  split; [reflexivity|].
  refine (proj1 (proj2 (proj2 (proj2 (proj2 (proj2 (proj2
    (add_frame_metadata_record reachable
       (replies_with (Some (REDIS_REPLY_STRING "1700000000123-0")))
       (fun _ : unit => 1700000000123) 30 0 1920 1080 "NV12"
       (mkManager connected_client "vlm:results:stream"
          "vlm:frames:stream" "vlm_processors" "deepstream_vlm") tt _)))))))).
  reflexivity.
Defined.

(** A format text with a NUL byte after "NV12": the frame record reaches
    the server with the format "NV12". *)
Example format_is_cut_at_nul :
  XADD "vlm:frames:stream"
    (frame_metadata_fields (fun _ : unit => 1700000000123) 30 0 1920 1080
       ("NV12" +:+ String "000" "x") tt)
  = ["XADD"; "vlm:frames:stream"; "*";
     "format"; "NV12"; "frame_number"; "30"; "height"; "1080";
     "source_id"; "0"; "timestamp"; "1700000000123";
     "type"; "frame_metadata"; "width"; "1920"].
Proof. vm_compute. reflexivity. Qed.

(** ** The tiler probe *)

Lemma count_class_app class_id ids1 ids2 :
  count_class class_id (ids1 ++ ids2)
  = count_class class_id ids1 + count_class class_id ids2.
Proof.
  unfold count_class. rewrite List.filter_app, length_app. lia.
Qed.

Lemma count_class_cons class_id x ids :
  count_class class_id (x :: ids)
  = (if class_id =? x then 1 else 0) + count_class class_id ids.
Proof.
  unfold count_class. cbn [List.filter].
  destruct (class_id =? x); cbn [length]; lia.
Qed.

Lemma to_uint32_succ n : to_uint32 (to_uint32 n + 1) = to_uint32 (n + 1).
Proof. unfold to_uint32. now rewrite Zplus_mod_idemp_l. Qed.

Lemma count_objects_spec ids : forall n0 v0 p0,
  count_objects ids (mkCounts (to_uint32 n0) (to_uint32 v0) (to_uint32 p0))
  = mkCounts
      (to_uint32 (n0 + count_class PGIE_CLASS_ID_VEHICLE ids
                     + count_class PGIE_CLASS_ID_PERSON ids))
      (to_uint32 (v0 + count_class PGIE_CLASS_ID_VEHICLE ids))
      (to_uint32 (p0 + count_class PGIE_CLASS_ID_PERSON ids)).
Proof.
  induction ids as [|class_id ids IH]; intros n0 v0 p0.
  - unfold count_class. simpl. now rewrite !Z.add_0_r.
  - rewrite !count_class_cons.
    cbn [count_objects num_rects vehicle_count person_count].
    unfold PGIE_CLASS_ID_VEHICLE, PGIE_CLASS_ID_PERSON in *.
    rewrite (Z.eqb_sym 0 class_id), (Z.eqb_sym 2 class_id).
    destruct (Z.eqb_spec class_id 0) as [->|H0].
    + cbn [Z.eqb num_rects vehicle_count person_count].
      rewrite !to_uint32_succ, IH. f_equal; f_equal; lia.
    + destruct (Z.eqb_spec class_id 2) as [->|H2].
      * cbn [num_rects vehicle_count person_count].
        rewrite !to_uint32_succ, IH. f_equal; f_equal; lia.
      * rewrite IH. f_equal; f_equal; lia.
Qed.

Lemma probe_frames_spec frames : forall n0 v0 p0 k frame c,
  probe_frames frames (mkCounts (to_uint32 n0) (to_uint32 v0) (to_uint32 p0)) !! k
    = Some (frame, c) ->
  frames !! k = Some frame /\
  c = mkCounts
        (to_uint32 (n0 + count_class PGIE_CLASS_ID_VEHICLE (objects_upto (S k) frames)
                       + count_class PGIE_CLASS_ID_PERSON (objects_upto (S k) frames)))
        (to_uint32 (v0 + count_class PGIE_CLASS_ID_VEHICLE (objects_upto (S k) frames)))
        (to_uint32 (p0 + count_class PGIE_CLASS_ID_PERSON (objects_upto (S k) frames))).
Proof.
  induction frames as [|first frames IH]; intros n0 v0 p0 k frame c Hk.
  - discriminate.
  - cbn [probe_frames] in Hk. rewrite count_objects_spec in Hk.
    destruct k as [|k].
    + injection Hk as <- <-. split; [reflexivity|].
      unfold objects_upto. cbn [take fmap list_fmap concat]. rewrite take_0.
      cbn [fmap list_fmap concat]. now rewrite app_nil_r.
    + cbn [lookup list_lookup] in Hk.
      destruct (IH _ _ _ k frame c Hk) as [Hf ->]. split; [exact Hf|].
      unfold objects_upto. cbn [take fmap list_fmap concat].
      rewrite !count_class_app. f_equal; f_equal; lia.
Qed.

(** Property X22.  The probe prints one line per frame of the batch, and its counters are
    not reset between frames: the line of the frame at position [k] carries
    the number of vehicles and of persons among the objects of frames
    [0..k] together (as [guint]), and [num_rects] is always their sum;
    objects of other classes are not counted. *)
Theorem probe_counts_accumulate (frames : list ProbeFrame) (k : nat)
    (frame : ProbeFrame) (c : probe_counts) :
  tiler_src_pad_buffer_probe frames !! k = Some (frame, c) ->
  let seen := objects_upto (S k) frames in
  frames !! k = Some frame /\
  vehicle_count c = to_uint32 (count_class PGIE_CLASS_ID_VEHICLE seen) /\
  person_count c = to_uint32 (count_class PGIE_CLASS_ID_PERSON seen) /\
  num_rects c = to_uint32 (count_class PGIE_CLASS_ID_VEHICLE seen
                           + count_class PGIE_CLASS_ID_PERSON seen).
Proof.
  intros Hk seen. unfold tiler_src_pad_buffer_probe in Hk.
  change (mkCounts 0 0 0)
    with (mkCounts (to_uint32 0) (to_uint32 0) (to_uint32 0)) in Hk.
  destruct (probe_frames_spec frames 0 0 0 k frame c Hk) as [Hf ->].
  fold seen. cbn [vehicle_count person_count num_rects].
  rewrite !Z.add_0_l. repeat split. exact Hf.
Qed.

(** Two frames: a car and a person in the first, a car and a road sign in
    the second. *)
Lemma probe_counts_accumulate_witness :
  let frames := [mkProbeFrame 0 7 [0; 2]; mkProbeFrame 1 7 [0; 3]] in
  vehicle_count (mkCounts 3 2 1)
  = to_uint32 (count_class PGIE_CLASS_ID_VEHICLE (objects_upto 2 frames)).
Proof.
  intros frames.
  exact (proj1 (proj2 (probe_counts_accumulate frames 1
                         (mkProbeFrame 1 7 [0; 3]) (mkCounts 3 2 1) eq_refl))).
Defined.

(** ** Stream statistics and range queries *)

Lemma fill_fields_flat (kvs : list (redisReply * redisReply))
    (tail : list redisReply) (m : gmap string string) :
  (length tail <= 1)%nat ->
  fill_fields (flatten_replies kvs ++ tail) m
  = foldl (fun m kv => <[reply_str kv.1 := reply_str kv.2]> m) m kvs.
Proof.
  intros Htail. revert m. induction kvs as [|[k v] kvs IH]; intros m.
  - destruct tail as [|x [|y tail]]; [reflexivity|reflexivity|simpl in Htail; lia].
  - cbn [flatten_replies flat_map app fill_fields foldl fst snd]. apply IH.
Qed.

(** Property X20.  [xinfo_stream] on a connected client reads the reply array two
    elements at a time: a last element without partner is ignored, a
    repeated key keeps its last value, and a value that is not text (the
    integers of XINFO STREAM, such as the stream length) is stored as the
    empty string. *)
Theorem xinfo_stream_reads_pairs {W : Type}
    (redisConnect : string -> Z -> W -> W * redisContext)
    (redisCommand : list string -> W -> W * option redisReply)
    (stream : string) (c : RedisClient) (w w' : W)
    (kvs : list (redisReply * redisReply)) (tail : list redisReply) :
  is_connected c = true ->
  (length tail <= 1)%nat ->
  redisCommand (XINFO_STREAM stream) w
    = (w', Some (REDIS_REPLY_ARRAY (flatten_replies kvs ++ tail))) ->
  xinfo_stream redisConnect redisCommand stream c w
    = Returned (pairs_map kvs, c, w') /\
  (forall kvs' key value,
     kvs = kvs' ++ [(key, value)] ->
     pairs_map kvs !! reply_str key = Some (reply_str value)) /\
  (forall kvs' key n,
     kvs = kvs' ++ [(REDIS_REPLY_STRING key, REDIS_REPLY_INTEGER n)] ->
     pairs_map kvs !! key = Some "").
Proof.
  intros Hc Htail Hreply.
  assert (forall kvs' key value, kvs = kvs' ++ [(key, value)] ->
            pairs_map kvs !! reply_str key = Some (reply_str value)) as Hlast.
  { intros kvs' key value ->. unfold pairs_map. rewrite foldl_app.
    cbn [foldl fst snd]. apply lookup_insert_eq. }
  split_and!.
  - unfold xinfo_stream. rewrite ensure_connected_when_connected by assumption.
    simpl. rewrite Hreply. rewrite fill_fields_flat by assumption. reflexivity.
  - exact Hlast.
  - intros kvs' key n Hk. exact (Hlast kvs' _ _ Hk).
Qed.

(** The beginning of an XINFO STREAM reply, cut after an odd element. *)
Lemma xinfo_stream_reads_pairs_witness :
  let kvs := [(REDIS_REPLY_STRING "length", REDIS_REPLY_INTEGER 5);
              (REDIS_REPLY_STRING "last-generated-id",
               REDIS_REPLY_STRING "1700000000000-0")] in
  let reply := REDIS_REPLY_ARRAY (flatten_replies kvs ++ [REDIS_REPLY_STRING "groups"]) in
  xinfo_stream reachable (replies_with (Some reply)) "vlm:results:stream"
    connected_client tt
  = Returned (pairs_map kvs, connected_client, tt).
Proof.
  intros kvs reply.
  refine (proj1 (xinfo_stream_reads_pairs reachable (replies_with (Some reply))
                   "vlm:results:stream" connected_client tt tt kvs
                   [REDIS_REPLY_STRING "groups"] eq_refl _ eq_refl)).
  simpl. lia.
Defined.



(** ** The catch block of the worker's publish step *)

(** No exception can leave [add_vlm_result], with or without a password,
    so the [catch] of [gst_dsexample_send_to_vlm_service] is never
    entered. *)
Lemma add_vlm_result_never_throws {W : Type}
    (redisConnect : string -> Z -> W -> W * redisContext)
    (redisCommand : list string -> W -> W * option redisReply)
    (system_clock_now : W -> Z)
    frame_number source_id response model mgr (w : W) (e : exception) :
  add_vlm_result redisConnect redisCommand system_clock_now
    frame_number source_id response model mgr w <> Thrown e.
Proof.
  unfold add_vlm_result, xadd, ensure_connected, connect.
  destruct (negb (is_connected (redis_client_ mgr))); [|simpl].
  - destruct (connected_ (redis_client_ mgr)); simpl.
    + destruct (redisCommand _ w); discriminate.
    + destruct (redisConnect _ _ w) as [w1 [| |]]; simpl; try discriminate.
      destruct (String.eqb (password_ (redis_client_ mgr)) ""); simpl.
      * destruct (redisCommand _ w1); discriminate.
      * destruct (redisCommand ["AUTH"; _] w1) as [w2 [[s|l|n| |s|s]|]]; simpl;
          try discriminate; destruct (redisCommand _ w2); discriminate.
  - destruct (redisCommand _ w); discriminate.
Qed.
